(** * IMDB movie reviews dataset adapter (datasets/nlp/imdb/imdb.py)

    A shallow embedding of the adapter: the builder configurations, the
    split plan, the path pattern built with [os.path.join] and compiled by
    [re], and the generators [_generate_examples] and [_vocab_text_gen],
    written as step machines over an archive of (path, file object) pairs.

    Conventions of the embedding:
    - a Python [str] is a [string] (a sequence of 8-bit characters);
    - [bytes] are [list byte];
    - [os.path] is [posixpath] (separator [/]);
    - a generator is a state together with a [next] function whose result
      is a yielded value, [StopIteration] or a raised exception. *)

From Stdlib Require Import String Ascii List ZArith Bool Arith Lia.
From Stdlib.Strings Require Byte.
Import ListNotations.
Open Scope string_scope.

(** ** Python [str] methods used by the adapter *)

Module Str.

(** The backslash character, written by its code. *)
Definition backslash : ascii := "092"%char.
Definition sep : ascii := "/"%char.

Definition of_char (c : ascii) : string := String c EmptyString.

(** [s.startswith(p)] *)
Fixpoint startswith (s p : string) {struct p} : bool :=
  match p with
  | EmptyString => true
  | String b p' =>
      match s with
      | EmptyString => false
      | String a s' => Ascii.eqb a b && startswith s' p'
      end
  end.

(** What follows the prefix [p] in [s], when [s] starts with [p]. *)
Fixpoint after (s p : string) {struct p} : option string :=
  match p with
  | EmptyString => Some s
  | String b p' =>
      match s with
      | EmptyString => None
      | String a s' => if Ascii.eqb a b then after s' p' else None
      end
  end.

(** [s.endswith(c)] for a one-character suffix. *)
Fixpoint endswith_char (s : string) (c : ascii) : bool :=
  match s with
  | EmptyString => false
  | String a EmptyString => Ascii.eqb a c
  | String _ s' => endswith_char s' c
  end.

(** [s.replace(old, new)] for a one-character [old]. *)
Fixpoint replace_char (old : ascii) (new : string) (s : string) : string :=
  match s with
  | EmptyString => EmptyString
  | String a s' =>
      if Ascii.eqb a old then new ++ replace_char old new s'
      else String a (replace_char old new s')
  end.

(** Membership of a character in a string, [c in s]. *)
Fixpoint mem (c : ascii) (s : string) : bool :=
  match s with
  | EmptyString => false
  | String a s' => Ascii.eqb c a || mem c s'
  end.

End Str.

(** ** [os.path.join] (posixpath) *)

Module OsPath.

(** The loop of [posixpath.join]: a component that starts with the
    separator restarts the path; otherwise it is appended, after a
    separator unless the path is empty or already ends with one. *)
Fixpoint join_from (path : string) (p : list string) : string :=
  match p with
  | [] => path
  | b :: p' =>
      let path' :=
        if Str.startswith b "/" then b
        else if (path =? "") || Str.endswith_char path Str.sep
             then path ++ b
             else path ++ "/" ++ b in
      join_from path' p'
  end.

Definition join (a : string) (p : list string) : string := join_from a p.

End OsPath.

(** ** The fragment of [re] the adapter relies on *)

Module Re.

(** Parsed patterns.  [Bol] is [^] (AT_BEGINNING, no MULTILINE flag),
    [Any] is [.] (no DOTALL flag), [Group] is a named capturing group
    [(?P<name>...)], [Alt] is a branch [a|b]. *)
Inductive regex : Type :=
| Empty
| Lit (c : ascii)
| Any
| Bol
| Cat (r1 r2 : regex)
| Alt (r1 r2 : regex)
| Group (name : string) (r : regex).

(** Outcome of [re.compile]: a pattern object, [re.error], or a pattern
    that uses syntax beyond the fragment embedded here. *)
Inductive compiled : Type :=
| Compiled (r : regex)
| ReError
| OutsideFragment.

(** *** Parsing *)

(** A group (or the whole pattern) under construction: its name, the
    alternatives already closed by [|] and the items of the current
    alternative, both most recent first. *)
Record frame : Type := {
  fname : option string;
  falts : list (list regex);
  fseq : list regex
}.

Definition push_item (f : frame) (r : regex) : frame :=
  {| fname := fname f; falts := falts f; fseq := r :: fseq f |}.

Definition next_alt (f : frame) : frame :=
  {| fname := fname f; falts := fseq f :: falts f; fseq := [] |}.

Definition new_frame (name : option string) : frame :=
  {| fname := name; falts := []; fseq := [] |}.

Definition seq_of (items : list regex) : regex :=
  fold_right Cat Empty items.

Fixpoint alt_of (first : regex) (others : list regex) : regex :=
  match others with
  | [] => first
  | r :: others' => Alt first (alt_of r others')
  end.

(** The pattern of a finished frame: its alternatives in source order. *)
Definition close (f : frame) : regex :=
  match rev (map (fun items => seq_of (rev items)) (fseq f :: falts f)) with
  | [] => Empty
  | r :: rs => alt_of r rs
  end.

Definition wrap (f : frame) : regex :=
  match fname f with
  | Some n => Group n (close f)
  | None => close f
  end.

(** Where the parser stands inside the opening of a group. *)
Inductive mode : Type :=
| Normal
| Escape
| Open
| OpenQ
| OpenQP
| Name (acc : string).

Definition is_digit (c : ascii) : bool :=
  (48 <=? nat_of_ascii c)%nat && (nat_of_ascii c <=? 57)%nat.

Definition is_ident_char (c : ascii) : bool :=
  is_digit c
  || ((65 <=? nat_of_ascii c)%nat && (nat_of_ascii c <=? 90)%nat)
  || ((97 <=? nat_of_ascii c)%nat && (nat_of_ascii c <=? 122)%nat)
  || Ascii.eqb c "_"%char.

Fixpoint all_ident (s : string) : bool :=
  match s with
  | EmptyString => true
  | String a s' => is_ident_char a && all_ident s'
  end.

(** [name.isidentifier()] on 8-bit characters. *)
Definition is_identifier (s : string) : bool :=
  match s with
  | EmptyString => false
  | String a _ => negb (is_digit a) && all_ident s
  end.

(** Characters that start syntax outside the fragment: repetition
    operators, character sets and the end anchor. *)
Definition unsupported : string := "*+?{[$".

(** One pass over the pattern, a character at a time.  [names] holds the
    group names already defined, [cur] the innermost open frame and
    [stack] the enclosing ones. *)
Fixpoint parse (m : mode) (names : list string) (cur : frame)
         (stack : list frame) (p : string) : compiled :=
  match p with
  | EmptyString =>
      match m, stack with
      | Normal, [] => Compiled (close cur)
      | _, _ => ReError
      end
  | String c p' =>
      match m with
      | Normal =>
          if Ascii.eqb c Str.backslash then parse Escape names cur stack p'
          else if Ascii.eqb c "("%char then parse Open names cur stack p'
          else if Ascii.eqb c ")"%char then
            match stack with
            | [] => ReError
            | parent :: stack' =>
                parse Normal names (push_item parent (wrap cur)) stack' p'
            end
          else if Ascii.eqb c "|"%char then
            parse Normal names (next_alt cur) stack p'
          else if Ascii.eqb c "^"%char then
            parse Normal names (push_item cur Bol) stack p'
          else if Ascii.eqb c "."%char then
            parse Normal names (push_item cur Any) stack p'
          else if Str.mem c unsupported then OutsideFragment
          else parse Normal names (push_item cur (Lit c)) stack p'
      | Escape =>
          if Ascii.eqb c Str.backslash
          then parse Normal names (push_item cur (Lit c)) stack p'
          else OutsideFragment
      | Open =>
          if Ascii.eqb c "?"%char then parse OpenQ names cur stack p'
          else OutsideFragment
      | OpenQ =>
          if Ascii.eqb c "P"%char then parse OpenQP names cur stack p'
          else OutsideFragment
      | OpenQP =>
          if Ascii.eqb c "<"%char then parse (Name "") names cur stack p'
          else OutsideFragment
      | Name acc =>
          if Ascii.eqb c ">"%char then
            if negb (is_identifier acc) then ReError
            else if existsb (String.eqb acc) names then ReError
            else parse Normal (acc :: names) (new_frame (Some acc))
                       (cur :: stack) p'
          else parse (Name (acc ++ Str.of_char c)) names cur stack p'
      end
  end.

(** [re.compile(pattern)] *)
Definition compile (pattern : string) : compiled :=
  parse Normal [] (new_frame None) [] pattern.

(** *** Matching *)

(** The groups captured so far, most recent binding first. *)
Definition captures : Type := list (string * string).

(** A match object: where the match ends and what the groups hold. *)
Record Match : Type := {
  m_end : nat;
  m_captures : captures
}.

Definition newline : ascii := "010"%char.

(** Backtracking matcher in continuation-passing style: [pos] is the
    offset of [s] in the subject, [k] matches what follows.  A branch tries
    its alternatives in order and keeps the first that lets the rest of
    the pattern succeed. *)
Fixpoint run (r : regex) (pos : nat) (s : string) (g : captures)
         (k : nat -> string -> captures -> option Match) : option Match :=
  match r with
  | Empty => k pos s g
  | Lit c =>
      match s with
      | String a s' => if Ascii.eqb a c then k (S pos) s' g else None
      | EmptyString => None
      end
  | Any =>
      match s with
      | String a s' => if Ascii.eqb a newline then None else k (S pos) s' g
      | EmptyString => None
      end
  | Bol => if (pos =? 0)%nat then k pos s g else None
  | Cat r1 r2 => run r1 pos s g (fun pos' s' g' => run r2 pos' s' g' k)
  | Alt r1 r2 =>
      match run r1 pos s g k with
      | Some m => Some m
      | None => run r2 pos s g k
      end
  | Group name r1 =>
      run r1 pos s g
          (fun pos' s' g' =>
             k pos' s' ((name, substring 0 (pos' - pos) s) :: g'))
  end.

(** [reg.match(s)]: a match starting at offset 0, of any length. *)
Definition rmatch (reg : regex) (s : string) : option Match :=
  run reg 0 s [] (fun pos _ g => Some {| m_end := pos; m_captures := g |}).

(** The names of the groups of a pattern, in order of definition. *)
Fixpoint group_names (r : regex) : list string :=
  match r with
  | Cat r1 r2 | Alt r1 r2 => group_names r1 ++ group_names r2
  | Group name r1 => name :: group_names r1
  | _ => []
  end.

Fixpoint lookup (name : string) (g : captures) : option string :=
  match g with
  | [] => None
  | (n, v) :: g' => if String.eqb n name then Some v else lookup name g'
  end.

(** [res.groupdict()]: every named group of the pattern, with the text
    it captured, or [None] when it took no part in the match. *)
Definition groupdict (reg : regex) (res : Match)
  : list (string * option string) :=
  map (fun n => (n, lookup n (m_captures res))) (group_names reg).

(** [d[key]] on a group dictionary; no result stands for [KeyError]. *)
Fixpoint getitem (d : list (string * option string)) (key : string)
  : option (option string) :=
  match d with
  | [] => None
  | (n, v) :: d' => if String.eqb n key then Some v else getitem d' key
  end.

End Re.

(** ** Python values, file objects and generators *)

(** The values a label can take: a [str], an [int] or [None]. *)
Inductive pyval : Type :=
| PyStr (s : string)
| PyInt (z : Z)
| PyNone.

Definition pyval_of_group (v : option string) : pyval :=
  match v with
  | Some s => PyStr s
  | None => PyNone
  end.

Module File.

(** A binary file object of an archive member: the member's bytes and
    the read offset. *)
Record file : Type := {
  content : list Byte.byte;
  offset : nat
}.

Definition fresh (b : list Byte.byte) : file :=
  {| content := b; offset := 0 |}.

Definition remaining (f : file) : list Byte.byte :=
  skipn (offset f) (content f).

(** [f.read()]: everything from the offset to the end; the offset moves
    to the end. *)
Definition read (f : file) : list Byte.byte * file :=
  (remaining f,
   {| content := content f;
      offset := Nat.max (offset f) (length (content f)) |}).

End File.

Module Bytes.

(** ASCII whitespace, as [bytes.strip()] understands it: space, tab,
    line feed, carriage return, vertical tab, form feed. *)
Definition is_space (b : Byte.byte) : bool :=
  match b with
  | Byte.x20 | Byte.x09 | Byte.x0a | Byte.x0d | Byte.x0b | Byte.x0c => true
  | _ => false
  end.

Fixpoint lstrip (l : list Byte.byte) : list Byte.byte :=
  match l with
  | [] => []
  | b :: l' => if is_space b then lstrip l' else l
  end.

Definition rstrip (l : list Byte.byte) : list Byte.byte :=
  rev (lstrip (rev l)).

(** [b.strip()] *)
Definition strip (l : list Byte.byte) : list Byte.byte :=
  rstrip (lstrip l).

(** A bytes literal [b"..."]. *)
Definition lit (s : string) : list Byte.byte := list_byte_of_string s.

End Bytes.

(** Exceptions the adapter can raise.  [Unmodelled] marks a run whose
    pattern leaves the embedded fragment of [re]: the embedding does not
    say what Python does there. *)
Inductive exn : Type :=
| re_error
| KeyError (key : string)
| Unmodelled.

Module Gen.

(** One call of [next] on a generator with state [S] yielding [Y]. *)
Inductive outcome (Y S : Type) : Type :=
| Yield (y : Y) (s : S)
| StopIteration (s : S)
| Raise (e : exn) (s : S).

Arguments Yield {Y S} y s.
Arguments StopIteration {Y S} s.
Arguments Raise {Y S} e s.

(** How a full iteration ended. *)
Inductive ending : Type :=
| Exhausted
| Raised (e : exn).

(** The result of iterating a generator to its end: what it yielded, in
    order, how it ended and the state it was left in. *)
Record listing (Y S : Type) : Type := {
  items : list Y;
  finish : ending;
  final : S
}.

Arguments items {Y S} l.
Arguments finish {Y S} l.
Arguments final {Y S} l.

Definition cons_item {Y S} (y : Y) (l : listing Y S) : listing Y S :=
  {| items := y :: items l; finish := finish l; final := final l |}.

(** [for y in gen] to the end, with at most [fuel] calls of [next]. *)
Fixpoint collect {Y S} (next : S -> outcome Y S) (fuel : nat) (s : S)
  : option (listing Y S) :=
  match fuel with
  | O => None
  | S fuel' =>
      match next s with
      | Yield y s' => option_map (cons_item y) (collect next fuel' s')
      | StopIteration s' =>
          Some {| items := []; finish := Exhausted; final := s' |}
      | Raise e s' =>
          Some {| items := []; finish := Raised e; final := s' |}
      end
  end.

End Gen.

(** ** The adapter *)

Definition _DOWNLOAD_URL : string :=
  "http://ai.stanford.edu/~amaas/data/sentiment/aclImdb_v1.tar.gz".

(** *** Builder configurations *)

Inductive text_encoder : Type := ByteTextEncoder.
Inductive text_encoder_cls : Type := SubwordTextEncoder.

(** [nlp.features.text.TextEncoderConfig(encoder, encoder_cls, vocab_size)];
    every argument defaults to [None]. *)
Record TextEncoderConfig : Type := {
  encoder : option text_encoder;
  encoder_cls : option text_encoder_cls;
  vocab_size : option Z
}.

Definition TextEncoderConfig_default : TextEncoderConfig :=
  {| encoder := None; encoder_cls := None; vocab_size := None |}.

Record IMDBReviewsConfig : Type := {
  name : string;
  description : string;
  version : string * string;
  text_encoder_config : TextEncoderConfig
}.

(** [IMDBReviewsConfig.__init__]: the version is fixed, and a missing
    [text_encoder_config] is replaced by the default one. *)
Definition IMDBReviewsConfig_init (text_encoder_config : option TextEncoderConfig)
           (name description : string) : IMDBReviewsConfig :=
  {| name := name;
     description := description;
     version := ("1.0.0",
                 "New split API (https://tensorflow.org/datasets/splits)");
     text_encoder_config :=
       match text_encoder_config with
       | Some c => c
       | None => TextEncoderConfig_default
       end |}.

Definition BUILDER_CONFIGS : list IMDBReviewsConfig :=
  [ IMDBReviewsConfig_init None "plain_text" "Plain text";
    IMDBReviewsConfig_init
      (Some {| encoder := Some ByteTextEncoder;
               encoder_cls := None;
               vocab_size := None |})
      "bytes"
      ("Uses byte-level text encoding with "
       ++ "`nlp.features.text.ByteTextEncoder`");
    IMDBReviewsConfig_init
      (Some {| encoder := None;
               encoder_cls := Some SubwordTextEncoder;
               vocab_size := Some (2 ^ 13)%Z |})
      "subwords8k"
      ("Uses `nlp.features.text.SubwordTextEncoder` with 8k "
       ++ "vocab size");
    IMDBReviewsConfig_init
      (Some {| encoder := None;
               encoder_cls := Some SubwordTextEncoder;
               vocab_size := Some (2 ^ 15)%Z |})
      "subwords32k"
      ("Uses `nlp.features.text.SubwordTextEncoder` with "
       ++ "32k vocab size") ].

(** The class names of the [label] feature declared in [_info]. *)
Definition label_names : list string := ["neg"; "pos"].

(** Modelled from the spec: the integer a [ClassLabel] feature gives a
    class name ([nlp.features.ClassLabel] is not under src/).  The spec maps
    [neg] to 0 and [pos] to 1, the position of the name in [names]. *)
Fixpoint str2int (names : list string) (s : string) : option Z :=
  match names with
  | [] => None
  | n :: names' =>
      if String.eqb n s then Some 0%Z
      else option_map Z.succ (str2int names' s)
  end.

(** The integer code of an emitted label: a class name goes through
    [str2int], an integer stands for itself. *)
Definition label_code (v : pyval) : option Z :=
  match v with
  | PyStr s => str2int label_names s
  | PyInt z => Some z
  | PyNone => None
  end.

(** *** [_generate_examples] *)

Record Example : Type := {
  text : list Byte.byte;
  label : pyval
}.

(** An archive entry, as [iter_archive] hands it out. *)
Definition entry : Type := string * File.file.

(** The states of the generator [_generate_examples(archive, directory,
    labeled)]: created and not yet started; suspended in the loop, with the
    compiled pattern, the entries already drawn from the archive (their file
    objects in the state the generator left them) and the entries to come;
    or finished. *)
Inductive gen_state : Type :=
| GStart (archive : list entry) (directory : string) (labeled : bool)
| GLoop (reg : Re.regex) (labeled : bool) (seen rest : list entry)
| GEnd (seen : list entry).

(** [_generate_examples(archive, directory, labeled)] creates the
    generator; nothing runs before the first [next]. *)
Definition _generate_examples (archive : list entry) (directory : string)
           (labeled : bool) : gen_state :=
  GStart archive directory labeled.

(** The pattern source handed to [re.compile]. *)
Definition reg_source (directory : string) (labeled : bool) : string :=
  let reg_path := if labeled then "(?P<label>neg|pos)" else "unsup" in
  Str.replace_char Str.backslash
    (String Str.backslash (String Str.backslash EmptyString))
    (OsPath.join ("^" ++ directory) [reg_path; ""]).

(** The [for] loop, from the entry at the head of [rest] up to the next
    [yield], the end of the archive or an exception. *)
Fixpoint generate_examples_loop (reg : Re.regex) (labeled : bool)
         (seen rest : list entry)
  : Gen.outcome (string * Example) gen_state :=
  match rest with
  | [] => Gen.StopIteration (GEnd seen)
  | (path, imdb_f) :: rest' =>
      match Re.rmatch reg path with
      | None =>
          generate_examples_loop reg labeled (seen ++ [(path, imdb_f)]) rest'
      | Some res =>
          let '(raw, imdb_f') := File.read imdb_f in
          let text := Bytes.strip raw in
          let label :=
            if labeled
            then option_map pyval_of_group
                            (Re.getitem (Re.groupdict reg res) "label")
            else Some (PyInt (-1)) in
          match label with
          | None =>
              Gen.Raise (KeyError "label")
                        (GEnd (seen ++ (path, imdb_f') :: rest'))
          | Some label =>
              Gen.Yield (path, {| text := text; label := label |})
                        (GLoop reg labeled (seen ++ [(path, imdb_f')]) rest')
          end
      end
  end.

(** [next(gen)] *)
Definition generate_examples_next (g : gen_state)
  : Gen.outcome (string * Example) gen_state :=
  match g with
  | GStart archive directory labeled =>
      match Re.compile (reg_source directory labeled) with
      | Re.Compiled reg => generate_examples_loop reg labeled [] archive
      | Re.ReError => Gen.Raise re_error (GEnd archive)
      | Re.OutsideFragment => Gen.Raise Unmodelled (GEnd archive)
      end
  | GLoop reg labeled seen rest => generate_examples_loop reg labeled seen rest
  | GEnd seen => Gen.StopIteration (GEnd seen)
  end.

(** A bound on the calls of [next] a full iteration takes: one per entry
    still to come, and one for the end. *)
Definition gen_fuel (g : gen_state) : nat :=
  match g with
  | GStart archive _ _ => S (length archive)
  | GLoop _ _ _ rest => S (length rest)
  | GEnd _ => 1
  end.

(** [list(gen)], with the state the generator ends in. *)
Definition examples_of (g : gen_state)
  : option (Gen.listing (string * Example) gen_state) :=
  Gen.collect generate_examples_next (gen_fuel g) g.

(** *** [_vocab_text_gen] *)

(** The generator [_vocab_text_gen(archive)] holds the generator it
    iterates over. *)
Inductive vocab_state : Type :=
| VGen (inner : gen_state).

Definition _vocab_text_gen (archive : list entry) : vocab_state :=
  VGen (_generate_examples archive (OsPath.join "aclImdb" ["train"]) true).

Definition vocab_text_gen_next (v : vocab_state)
  : Gen.outcome (list Byte.byte) vocab_state :=
  match v with
  | VGen inner =>
      match generate_examples_next inner with
      | Gen.Yield (_, ex) inner' => Gen.Yield (text ex) (VGen inner')
      | Gen.StopIteration inner' => Gen.StopIteration (VGen inner')
      | Gen.Raise e inner' => Gen.Raise e (VGen inner')
      end
  end.

Definition vocab_fuel (v : vocab_state) : nat :=
  match v with
  | VGen inner => gen_fuel inner
  end.

Definition vocab_texts_of (v : vocab_state)
  : option (Gen.listing (list Byte.byte) vocab_state) :=
  Gen.collect vocab_text_gen_next (vocab_fuel v) v.

(** *** [_split_generators] *)

(** The download manager: [download] maps a URL to a local path,
    [iter_archive] opens a fresh iteration over the archive at a path. *)
Record dl_manager : Type := {
  download : string -> string;
  iter_archive : string -> list entry
}.

(** Modelled from the spec: the names of the standard splits
    [nlp.Split.TRAIN] and [nlp.Split.TEST] ([nlp.Split] is not under src/);
    the spec calls them train and test. *)
Definition Split_TRAIN : string := "train".
Definition Split_TEST : string := "test".

(** The keyword arguments of a split; [labeled] may be left out. *)
Record gen_kwargs : Type := {
  kw_archive : list entry;
  kw_directory : string;
  kw_labeled : option bool
}.

Record SplitGenerator : Type := {
  sg_name : string;
  sg_gen_kwargs : gen_kwargs
}.

(** What [_split_generators] does: the corpus generator it hands to
    [maybe_build_from_corpus] and the splits it returns. *)
Record split_plan : Type := {
  corpus : vocab_state;
  splits : list SplitGenerator
}.

Definition _split_generators (dl : dl_manager) : split_plan :=
  let arch_path := download dl _DOWNLOAD_URL in
  let archive := fun _ : unit => iter_archive dl arch_path in
  {| corpus := _vocab_text_gen (archive tt);
     splits :=
       [ {| sg_name := Split_TRAIN;
            sg_gen_kwargs :=
              {| kw_archive := archive tt;
                 kw_directory := OsPath.join "aclImdb" ["train"];
                 kw_labeled := None |} |};
         {| sg_name := Split_TEST;
            sg_gen_kwargs :=
              {| kw_archive := archive tt;
                 kw_directory := OsPath.join "aclImdb" ["test"];
                 kw_labeled := None |} |};
         {| sg_name := "unsupervised";
            sg_gen_kwargs :=
              {| kw_archive := archive tt;
                 kw_directory := OsPath.join "aclImdb" ["train"];
                 kw_labeled := Some false |} |} ] |}.

(** [_generate_examples] called with the keyword arguments of a split;
    [labeled] defaults to [True]. *)
Definition generate_split (kw : gen_kwargs) : gen_state :=
  match kw_labeled kw with
  | Some labeled =>
      _generate_examples (kw_archive kw) (kw_directory kw) labeled
  | None => _generate_examples (kw_archive kw) (kw_directory kw) true
  end.

(** ** The pattern in the spec's words *)

(** The directory prefix of a split: the directory followed by a path
    separator (which [os.path.join] leaves out when the directory already
    ends with one). *)
Definition split_prefix (directory : string) : string :=
  if Str.endswith_char directory Str.sep then directory
  else directory ++ "/".

(** The path starts with the split's directory prefix, then [seg], then a
    path separator. *)
Definition lies_under (directory seg path : string) : bool :=
  Str.startswith path (split_prefix directory ++ seg ++ "/").

(** The path matches the anchored pattern of the split: [neg] or [pos]
    after the prefix when labeled, [unsup] when not. *)
Definition selected (directory : string) (labeled : bool) (path : string)
  : bool :=
  if labeled
  then lies_under directory "neg" path || lies_under directory "pos" path
  else lies_under directory "unsup" path.

(** The label the spec gives an entry of a split. *)
Definition expected_label (directory : string) (labeled : bool)
           (path : string) : pyval :=
  if labeled
  then if lies_under directory "neg" path then PyStr "neg" else PyStr "pos"
  else PyInt (-1).

(** What the spec has a split emit for an entry, and how it leaves the
    entry's file object. *)
Definition emit (directory : string) (labeled : bool) (e : entry)
  : list (string * Example) :=
  if selected directory labeled (fst e)
  then [(fst e, {| text := Bytes.strip (File.remaining (snd e));
                   label := expected_label directory labeled (fst e) |})]
  else [].

Definition touch (directory : string) (labeled : bool) (e : entry) : entry :=
  if selected directory labeled (fst e)
  then (fst e, snd (File.read (snd e)))
  else e.

(** [t] is [whole] without its leading and trailing whitespace: what was
    taken off at either end is whitespace, and [t] neither starts nor ends
    with whitespace. *)
Definition stripped_of (whole t : list Byte.byte) : Prop :=
  exists pre post,
    whole = (pre ++ t ++ post)%list
    /\ forallb Bytes.is_space pre = true
    /\ forallb Bytes.is_space post = true
    /\ (forall b, hd_error t = Some b -> Bytes.is_space b = false)
    /\ (forall b, hd_error (rev t) = Some b -> Bytes.is_space b = false).

(** A directory is plain when none of its characters is special in a
    pattern.  The backslash is not in the list: [_generate_examples]
    doubles it before compiling. *)
Definition special : string := ".^$*+?{[|()".

Definition plain_char (c : ascii) : bool := negb (Str.mem c special).

Fixpoint plain (s : string) : bool :=
  match s with
  | EmptyString => true
  | String a s' => plain_char a && plain s'
  end.

(** What an entry presents to a reader: its path and the bytes still to
    be read from its file object. *)
Definition view (e : entry) : string * list Byte.byte :=
  (fst e, File.remaining (snd e)).

(** ** Auxiliary definitions for the proofs *)

Fixpoint lits (s : string) : list Re.regex :=
  match s with
  | EmptyString => []
  | String c s' => Re.Lit c :: lits s'
  end.

Fixpoint push_lits (f : Re.frame) (s : string) : Re.frame :=
  match s with
  | EmptyString => f
  | String c s' => push_lits (Re.push_item f (Re.Lit c)) s'
  end.

Definition label_group : Re.regex :=
  Re.Group "label"
           (Re.Alt (Re.seq_of (lits "neg")) (Re.seq_of (lits "pos"))).

(** The pattern object [re.compile] builds for a plain directory. *)
Definition pattern_of (directory : string) (labeled : bool) : Re.regex :=
  Re.seq_of
    (Re.Bol :: lits (split_prefix directory)
            ++ (if labeled then [label_group; Re.Lit "/"] else lits "unsup/")).

(** The [for] loop run to its end in one go. *)
Fixpoint run_loop (reg : Re.regex) (labeled : bool) (seen rest : list entry)
  : Gen.listing (string * Example) gen_state :=
  match rest with
  | [] => {| Gen.items := []; Gen.finish := Gen.Exhausted;
             Gen.final := GEnd seen |}
  | (path, imdb_f) :: rest' =>
      match Re.rmatch reg path with
      | None => run_loop reg labeled (seen ++ [(path, imdb_f)]) rest'
      | Some res =>
          let '(raw, imdb_f') := File.read imdb_f in
          match (if labeled
                 then option_map pyval_of_group
                                 (Re.getitem (Re.groupdict reg res) "label")
                 else Some (PyInt (-1))) with
          | None =>
              {| Gen.items := []; Gen.finish := Gen.Raised (KeyError "label");
                 Gen.final := GEnd (seen ++ (path, imdb_f') :: rest') |}
          | Some label =>
              Gen.cons_item
                (path, {| text := Bytes.strip raw; label := label |})
                (run_loop reg labeled (seen ++ [(path, imdb_f')]) rest')
          end
      end
  end.

(** ** Sample archives *)

(** A small archive with the layout of the real one: an extraneous entry,
    and entries of the three kinds; every file object is fresh. *)
Definition sample_archive : list entry :=
  [ ("aclImdb/README", File.fresh (Bytes.lit "About"));
    ("aclImdb/train/pos/0_9.txt", File.fresh (Bytes.lit "Great movie!"));
    ("aclImdb/train/unsup/5.txt", File.fresh (Bytes.lit "Meh."));
    ("aclImdb/train/neg/1_1.txt", File.fresh (Bytes.lit "   "));
    ("aclImdb/test/neg/2_3.txt", File.fresh (Bytes.lit " Dull. ")) ].

(** The same entries behind other file objects: each holds one more byte
    in front, already read. *)
Definition sample_archive_shifted : list entry :=
  map (fun e : entry =>
         (fst e, {| File.content := Byte.x00 :: File.content (snd e);
                    File.offset := 1 |}))
      sample_archive.

(** The archive of the spec's first example scenario. *)
Definition great_movie_archive : list entry :=
  [ ("aclImdb/train/pos/0_9.txt", File.fresh (Bytes.lit "Great movie!")) ].

(** Whether every file object of an archive is unread. *)
Definition all_fresh (archive : list entry) : bool :=
  forallb (fun e : entry => File.offset (snd e) =? 0)%nat archive.

(** The [labeled] argument a split's keyword arguments amount to. *)
Definition labeled_of (kw : gen_kwargs) : bool :=
  match kw_labeled kw with
  | Some b => b
  | None => true
  end.

(** ** [_info] *)

Definition newline_str : string := String "010"%char EmptyString.

Definition _DESCRIPTION : string :=
  "Large Movie Review Dataset." ++ newline_str
  ++ "This is a dataset for binary sentiment classification containing "
  ++ "substantially more data than previous benchmark datasets. We provide "
  ++ "a set of 25,000 highly polar movie reviews for training, and 25,000 "
  ++ "for testing. There is additional unlabeled data for use as well.".

Definition _CITATION : string :=
  "@InProceedings{maas-EtAl:2011:ACL-HLT2011," ++ newline_str
  ++ "  author    = {Maas, Andrew L.  and  Daly, Raymond E.  and  "
  ++ "Pham, Peter T.  and  Huang, Dan  and  Ng, Andrew Y.  and  "
  ++ "Potts, Christopher}," ++ newline_str
  ++ "  title     = {Learning Word Vectors for Sentiment Analysis},"
  ++ newline_str
  ++ "  booktitle = {Proceedings of the 49th Annual Meeting of the "
  ++ "Association for Computational Linguistics: Human Language "
  ++ "Technologies}," ++ newline_str
  ++ "  month     = {June}," ++ newline_str
  ++ "  year      = {2011}," ++ newline_str
  ++ "  address   = {Portland, Oregon, USA}," ++ newline_str
  ++ "  publisher = {Association for Computational Linguistics},"
  ++ newline_str
  ++ "  pages     = {142--150}," ++ newline_str
  ++ "  url       = {http://www.aclweb.org/anthology/P11-1015}" ++ newline_str
  ++ "}" ++ newline_str.

(** The two kinds of feature [_info] declares. *)
Inductive feature : Type :=
| Text (encoder_config : TextEncoderConfig)
| ClassLabel (names : list string).

(** [nlp.DatasetInfo], with the builder stood for by its configuration;
    [features] is the dictionary given to [FeaturesDict], in source order. *)
Record DatasetInfo : Type := {
  info_builder : IMDBReviewsConfig;
  info_description : string;
  info_features : list (string * feature);
  supervised_keys : string * string;
  homepage : string;
  citation : string
}.

Definition _info (builder_config : IMDBReviewsConfig) : DatasetInfo :=
  {| info_builder := builder_config;
     info_description := _DESCRIPTION;
     info_features :=
       [ ("text", Text (text_encoder_config builder_config));
         ("label", ClassLabel label_names) ];
     supervised_keys := ("text", "label");
     homepage := "http://ai.stanford.edu/~amaas/data/sentiment/";
     citation := _CITATION |}.

(** [features[key]]; no result stands for [KeyError]. *)
Fixpoint feature_of (features : list (string * feature)) (key : string)
  : option feature :=
  match features with
  | [] => None
  | (k, v) :: features' =>
      if String.eqb k key then Some v else feature_of features' key
  end.

(** ** Vocabulary for the further properties *)

(** The entries a generator has still to draw from its archive, and those
    it has drawn. *)
Definition pending (g : gen_state) : list entry :=
  match g with
  | GStart archive _ _ => archive
  | GLoop _ _ _ rest => rest
  | GEnd _ => []
  end.

Definition drawn (g : gen_state) : list entry :=
  match g with
  | GStart _ _ _ => []
  | GLoop _ _ seen _ => seen
  | GEnd seen => seen
  end.


(** A download manager that serves the sample archive. *)
Definition sample_dl : dl_manager :=
  {| download := fun url => url;
     iter_archive := fun _ => sample_archive |}.

(** Whether the pattern matches the path. *)
Definition matches (reg : Re.regex) (path : string) : bool :=
  match Re.rmatch reg path with
  | Some _ => true
  | None => false
  end.




(** The paths of the archive layout that belong to the dataset. *)
Definition in_dataset (path : string) : bool :=
  Str.startswith path "aclImdb/train/neg/"
  || Str.startswith path "aclImdb/train/pos/"
  || Str.startswith path "aclImdb/test/neg/"
  || Str.startswith path "aclImdb/test/pos/"
  || Str.startswith path "aclImdb/train/unsup/".

(** ** Strings and paths *)

Section StringFacts.

Lemma append_assoc (a b c : string) : (a ++ b) ++ c = a ++ (b ++ c).
Proof.
  induction a as [|x a IH]; simpl; [reflexivity | now rewrite IH].
Qed.

Lemma after_app (s p q : string) :
  Str.after s (p ++ q) =
  match Str.after s p with
  | Some r => Str.after r q
  | None => None
  end.
Proof.
  revert s; induction p as [|b p IH]; intros s; simpl; [reflexivity|].
  destruct s as [|a s]; [reflexivity|].
  destruct (Ascii.eqb a b); [apply IH | reflexivity].
Qed.

Lemma startswith_after (s p : string) :
  Str.startswith s p =
  match Str.after s p with
  | Some _ => true
  | None => false
  end.
Proof.
  revert s; induction p as [|b p IH]; intros s; simpl; [reflexivity|].
  destruct s as [|a s]; [reflexivity|].
  destruct (Ascii.eqb a b); simpl; [apply IH | reflexivity].
Qed.

Lemma after_sound (s p r : string) : Str.after s p = Some r -> s = p ++ r.
Proof.
  revert s; induction p as [|b p IH]; intros s; simpl.
  - now intros [= ->].
  - destruct s as [|a s]; [discriminate|].
    destruct (Ascii.eqb_spec a b) as [->|_]; [|discriminate].
    intros H; now rewrite (IH _ H).
Qed.

Lemma after_complete (p r : string) : Str.after (p ++ r) p = Some r.
Proof.
  induction p as [|b p IH]; simpl; [reflexivity|].
  now rewrite Ascii.eqb_refl.
Qed.

Lemma endswith_char_app (a b : string) (c : ascii) :
  b <> "" -> Str.endswith_char (a ++ b) c = Str.endswith_char b c.
Proof.
  intros Hb; induction a as [|x a IH]; simpl; [reflexivity|].
  rewrite IH.
  destruct (a ++ b) eqn:E; [|reflexivity].
  destruct a; simpl in E; [contradiction | discriminate].
Qed.

Lemma endswith_char_cons (x : ascii) (d : string) (c : ascii) :
  x <> c ->
  Str.endswith_char (String x d) c = Str.endswith_char d c.
Proof.
  intros Hx; destruct d as [|y d]; simpl; [|reflexivity].
  now apply Ascii.eqb_neq.
Qed.

Lemma replace_char_app (old : ascii) (new a b : string) :
  Str.replace_char old new (a ++ b) =
  Str.replace_char old new a ++ Str.replace_char old new b.
Proof.
  induction a as [|x a IH]; simpl; [reflexivity|].
  destruct (Ascii.eqb x old); simpl; rewrite IH;
    [now rewrite append_assoc | reflexivity].
Qed.

Lemma plain_app (a b : string) : plain (a ++ b) = plain a && plain b.
Proof.
  induction a as [|x a IH]; simpl; [reflexivity|].
  now rewrite IH, andb_assoc.
Qed.

Lemma plain_split_prefix (d : string) :
  plain d = true -> plain (split_prefix d) = true.
Proof.
  intros H; unfold split_prefix.
  destruct (Str.endswith_char d Str.sep); [exact H|].
  now rewrite plain_app, H.
Qed.

Lemma join_from_cons (path b : string) (p : list string) :
  Str.startswith b "/" = false ->
  (path =? "")%string = false ->
  OsPath.join_from path (b :: p) =
  OsPath.join_from
    (if Str.endswith_char path Str.sep then path ++ b else path ++ "/" ++ b)
    p.
Proof.
  intros Hb Hp; cbn [OsPath.join_from]; now rewrite Hb, Hp.
Qed.

(** The path [os.path.join] builds from the anchored directory, the
    label part and the empty last component, for the two values the label
    part takes. *)
Lemma join_pattern (d : string) (labeled : bool) :
  OsPath.join ("^" ++ d)
              [if labeled then "(?P<label>neg|pos)" else "unsup"; ""] =
  "^" ++ split_prefix d
      ++ (if labeled then "(?P<label>neg|pos)" else "unsup") ++ "/".
Proof.
  unfold OsPath.join, split_prefix.
  set (rp := if labeled then "(?P<label>neg|pos)" else "unsup").
  assert (Hrp1 : Str.startswith rp "/" = false)
    by (destruct labeled; reflexivity).
  assert (Hrp2 : rp <> "") by (destruct labeled; discriminate).
  assert (Hrp3 : Str.endswith_char rp Str.sep = false)
    by (destruct labeled; reflexivity).
  assert (E : Str.endswith_char ("^" ++ d) Str.sep
              = Str.endswith_char d Str.sep).
  { change ("^" ++ d) with (String "^" d).
    apply endswith_char_cons. discriminate. }
  rewrite join_from_cons by (assumption || reflexivity).
  rewrite E.
  rewrite join_from_cons;
    [ | reflexivity | destruct (Str.endswith_char d Str.sep); reflexivity ].
  cbn [OsPath.join_from].
  destruct (Str.endswith_char d Str.sep).
  - rewrite endswith_char_app, Hrp3 by assumption.
    simpl. now rewrite append_assoc.
  - rewrite <- append_assoc, endswith_char_app, Hrp3 by assumption.
    simpl. now rewrite !append_assoc.
Qed.

End StringFacts.

(** ** The compiled pattern *)

Section PatternFacts.

Lemma plain_char_cases (c : ascii) :
  plain_char c = true ->
  Ascii.eqb c "("%char = false /\ Ascii.eqb c ")"%char = false
  /\ Ascii.eqb c "|"%char = false /\ Ascii.eqb c "^"%char = false
  /\ Ascii.eqb c "."%char = false /\ Str.mem c Re.unsupported = false.
Proof.
  unfold plain_char, special, Re.unsupported; cbn [Str.mem].
  rewrite negb_true_iff, !orb_false_iff.
  intros (? & ? & ? & ? & ? & ? & ? & ? & ? & ? & ? & _).
  repeat split; assumption.
Qed.

Lemma push_lits_fseq (f : Re.frame) (s : string) :
  Re.fseq (push_lits f s) = (rev (lits s) ++ Re.fseq f)%list.
Proof.
  revert f; induction s as [|c s IH]; intros f; simpl; [reflexivity|].
  now rewrite IH, <- app_assoc.
Qed.

Lemma push_lits_falts (f : Re.frame) (s : string) :
  Re.falts (push_lits f s) = Re.falts f.
Proof.
  revert f; induction s as [|c s IH]; intros f; simpl; [reflexivity|].
  now rewrite IH.
Qed.

(** A plain string, its backslashes doubled, is parsed as the sequence
    of its characters. *)
Lemma parse_plain (s rest : string) (names : list string) (cur : Re.frame)
      (stack : list Re.frame) :
  plain s = true ->
  Re.parse Re.Normal names cur stack
           (Str.replace_char Str.backslash
              (String Str.backslash (String Str.backslash EmptyString)) s
            ++ rest) =
  Re.parse Re.Normal names (push_lits cur s) stack rest.
Proof.
  revert cur; induction s as [|c s IH]; intros cur Hs; [reflexivity|].
  cbn [plain] in Hs. apply andb_prop in Hs as [Hc Hs].
  cbn [Str.replace_char push_lits].
  destruct (Ascii.eqb_spec c Str.backslash) as [->|Hbs].
  - cbn [append Re.parse]. rewrite !Ascii.eqb_refl. now apply IH.
  - apply plain_char_cases in Hc as (H1 & H2 & H3 & H4 & H5 & H6).
    apply Ascii.eqb_neq in Hbs.
    cbn [append Re.parse].
    rewrite Hbs, H1, H2, H3, H4, H5, H6. now apply IH.
Qed.

Lemma close_single (f : Re.frame) :
  Re.falts f = [] -> Re.close f = Re.seq_of (rev (Re.fseq f)).
Proof.
  intros H; unfold Re.close; now rewrite H.
Qed.

(** [re.compile] on the pattern of a plain directory. *)
Lemma compile_reg_source (d : string) (labeled : bool) :
  plain d = true ->
  Re.compile (reg_source d labeled) = Re.Compiled (pattern_of d labeled).
Proof.
  intros Hd. unfold reg_source, Re.compile.
  rewrite join_pattern.
  change ("^" ++ split_prefix d
              ++ (if labeled then "(?P<label>neg|pos)" else "unsup") ++ "/")
    with (String "^" (split_prefix d
              ++ (if labeled then "(?P<label>neg|pos)" else "unsup") ++ "/")).
  cbn [Str.replace_char]. change (Ascii.eqb "^" Str.backslash) with false.
  cbv iota. rewrite replace_char_app.
  cbn [Re.parse]. change (Ascii.eqb "^" Str.backslash) with false.
  change (Ascii.eqb "^" "(") with false.
  change (Ascii.eqb "^" ")") with false.
  change (Ascii.eqb "^" "|") with false.
  change (Ascii.eqb "^" "^") with true. cbv iota.
  rewrite parse_plain by now apply plain_split_prefix.
  unfold pattern_of.
  destruct labeled.
  - cbn. rewrite close_single by (cbn; now rewrite push_lits_falts).
    cbn. rewrite push_lits_fseq. cbn.
    rewrite !rev_app_distr, rev_involutive. cbn.
    rewrite <- !app_assoc. reflexivity.
  - cbn. rewrite close_single by (cbn; now rewrite push_lits_falts).
    cbn. rewrite push_lits_fseq. cbn.
    rewrite !rev_app_distr, rev_involutive. cbn.
    rewrite <- !app_assoc. reflexivity.
Qed.

End PatternFacts.

(** ** Matching a path against the pattern *)

Section MatchFacts.

(** A run of literals consumes exactly that prefix of the subject. *)
Lemma run_lits (s : string) (rs : list Re.regex) (pos : nat) (subj : string)
      (g : Re.captures) (k : nat -> string -> Re.captures -> option Re.Match) :
  Re.run (Re.seq_of (lits s ++ rs)) pos subj g k =
  match Str.after subj s with
  | Some r => Re.run (Re.seq_of rs) (pos + String.length s) r g k
  | None => None
  end.
Proof.
  revert pos subj; induction s as [|c s IH]; intros pos subj.
  - cbn. now rewrite Nat.add_0_r.
  - cbn [lits app Re.seq_of fold_right Re.run Str.after String.length].
    destruct subj as [|a subj]; [reflexivity|].
    destruct (Ascii.eqb a c); [|reflexivity].
    fold (Re.seq_of (lits s ++ rs)). rewrite IH.
    now rewrite Nat.add_succ_r.
Qed.

(** The label group followed by the separator, at offset [n]. *)
Lemma run_label (n : nat) (tail : string) :
  Re.run (Re.seq_of [label_group; Re.Lit "/"]) n tail []
         (fun pos _ g => Some {| Re.m_end := pos; Re.m_captures := g |}) =
  match Str.after tail "neg/", Str.after tail "pos/" with
  | Some _, _ =>
      Some {| Re.m_end := n + 4; Re.m_captures := [("label", "neg")] |}
  | None, Some _ =>
      Some {| Re.m_end := n + 4; Re.m_captures := [("label", "pos")] |}
  | None, None => None
  end.
Proof.
  unfold label_group. cbn [Re.seq_of fold_right Re.run].
  rewrite <- (app_nil_r (lits "neg")), <- (app_nil_r (lits "pos")).
  rewrite !run_lits.
  change "neg/" with ("neg" ++ "/"). change "pos/" with ("pos" ++ "/").
  rewrite !after_app.
  assert (Hsub : forall w r, String.length w = 3 ->
                   substring 0 (n + 3 - n) (w ++ r) = w).
  { intros w r Hw. replace (n + 3 - n) with 3 by lia.
    destruct w as [|a [|b [|c [|e w]]]]; try discriminate.
    destruct r; reflexivity. }
  destruct (Str.after tail "neg") as [r1|] eqn:E1.
  - apply after_sound in E1. subst tail.
    cbn [Re.run Re.seq_of fold_right String.length].
    destruct r1 as [|a r1]; cbn [Str.after].
    + reflexivity.
    + destruct (Ascii.eqb a "/").
      * rewrite (Hsub "neg" _ eq_refl).
        replace (S (n + 3)) with (n + 4) by lia. reflexivity.
      * reflexivity.
  - destruct (Str.after tail "pos") as [r2|] eqn:E2; [|reflexivity].
    apply after_sound in E2. subst tail.
    cbn [Re.run Re.seq_of fold_right String.length].
    destruct r2 as [|a r2]; cbn [Str.after].
    + reflexivity.
    + destruct (Ascii.eqb a "/").
      * rewrite (Hsub "pos" _ eq_refl).
        replace (S (n + 3)) with (n + 4) by lia. reflexivity.
      * reflexivity.
Qed.

Lemma rmatch_labeled (d path : string) :
  Re.rmatch (pattern_of d true) path =
  match Str.after path (split_prefix d) with
  | None => None
  | Some tail =>
      match Str.after tail "neg/", Str.after tail "pos/" with
      | Some _, _ =>
          Some {| Re.m_end := String.length (split_prefix d) + 4;
                  Re.m_captures := [("label", "neg")] |}
      | None, Some _ =>
          Some {| Re.m_end := String.length (split_prefix d) + 4;
                  Re.m_captures := [("label", "pos")] |}
      | None, None => None
      end
  end.
Proof.
  unfold Re.rmatch, pattern_of.
  cbn [Re.seq_of fold_right Re.run Nat.eqb].
  fold (Re.seq_of (lits (split_prefix d) ++ [label_group; Re.Lit "/"])).
  rewrite run_lits.
  destruct (Str.after path (split_prefix d)) as [tail|]; [|reflexivity].
  rewrite Nat.add_0_l. apply run_label.
Qed.

Lemma rmatch_unlabeled (d path : string) :
  Re.rmatch (pattern_of d false) path =
  match Str.after path (split_prefix d ++ "unsup/") with
  | None => None
  | Some _ =>
      Some {| Re.m_end := String.length (split_prefix d) + 6;
              Re.m_captures := [] |}
  end.
Proof.
  unfold Re.rmatch, pattern_of.
  cbn [Re.seq_of fold_right Re.run Nat.eqb].
  fold (Re.seq_of (lits (split_prefix d) ++ lits "unsup/")).
  rewrite run_lits, after_app.
  destruct (Str.after path (split_prefix d)) as [tail|]; [|reflexivity].
  rewrite <- (app_nil_r (lits "unsup/")), run_lits.
  destruct (Str.after tail "unsup/"); [|reflexivity].
  cbn. reflexivity.
Qed.

Lemma group_names_lits (s : string) (rs : list Re.regex) :
  Re.group_names (Re.seq_of (lits s ++ rs)) = Re.group_names (Re.seq_of rs).
Proof.
  induction s as [|c s IH]; [reflexivity | exact IH].
Qed.

Lemma group_names_labeled (d : string) :
  Re.group_names (pattern_of d true) = ["label"].
Proof.
  unfold pattern_of. cbn [Re.seq_of fold_right Re.group_names app].
  fold (Re.seq_of (lits (split_prefix d) ++ [label_group; Re.Lit "/"])).
  now rewrite group_names_lits.
Qed.

(** The spec's predicates, read off the remainder after the prefix. *)
Lemma lies_under_after (d seg path : string) :
  lies_under d seg path =
  match Str.after path (split_prefix d) with
  | Some tail =>
      match Str.after tail (seg ++ "/") with
      | Some _ => true
      | None => false
      end
  | None => false
  end.
Proof.
  unfold lies_under. rewrite startswith_after, after_app.
  destruct (Str.after path (split_prefix d)); reflexivity.
Qed.

Lemma neg_excludes_pos (tail r : string) :
  Str.after tail "neg/" = Some r -> Str.after tail "pos/" = None.
Proof.
  intros H. apply after_sound in H. subst tail. reflexivity.
Qed.

End MatchFacts.

(** ** The generator, run to its end *)

Section GeneratorFacts.

(** Iterating the suspended generator is running the loop to its end:
    one call of [next] per yielded pair, and one more for the end. *)
Lemma collect_loop (reg : Re.regex) (labeled : bool) (rest : list entry) :
  forall (seen : list entry) (fuel : nat),
    length rest < fuel ->
    Gen.collect generate_examples_next fuel (GLoop reg labeled seen rest) =
    Some (run_loop reg labeled seen rest).
Proof.
  induction rest as [|[path imdb_f] rest IH]; intros seen fuel Hfuel;
    (destruct fuel as [|fuel]; [inversion Hfuel|]).
  - reflexivity.
  - cbn [length] in Hfuel.
    cbn [Gen.collect generate_examples_next generate_examples_loop run_loop].
    destruct (Re.rmatch reg path) as [res|].
    + destruct (File.read imdb_f) as [raw imdb_f'].
      destruct (if labeled
                then option_map pyval_of_group
                       (Re.getitem (Re.groupdict reg res) "label")
                else Some (PyInt (-1))) as [lab|]; [|reflexivity].
      rewrite IH by lia. reflexivity.
    + specialize (IH (seen ++ [(path, imdb_f)])%list (S fuel)).
      cbn [Gen.collect generate_examples_next] in IH.
      apply IH. lia.
Qed.

(** The first [next] compiles the pattern, then enters the loop. *)
Lemma examples_of_start (archive : list entry) (d : string) (labeled : bool) :
  examples_of (_generate_examples archive d labeled) =
  Some match Re.compile (reg_source d labeled) with
       | Re.Compiled reg => run_loop reg labeled [] archive
       | Re.ReError =>
           {| Gen.items := []; Gen.finish := Gen.Raised re_error;
              Gen.final := GEnd archive |}
       | Re.OutsideFragment =>
           {| Gen.items := []; Gen.finish := Gen.Raised Unmodelled;
              Gen.final := GEnd archive |}
       end.
Proof.
  unfold examples_of, _generate_examples.
  cbn [gen_fuel Gen.collect generate_examples_next].
  destruct (Re.compile (reg_source d labeled)) as [reg| |];
    try reflexivity.
  pose proof (collect_loop reg labeled archive [] (S (length archive))
                           (Nat.lt_succ_diag_r _)) as H.
  cbn [Gen.collect generate_examples_next] in H. exact H.
Qed.

(** What the pattern of a plain directory decides for a path, in the
    spec's words. *)
Lemma match_decides (d : string) (labeled : bool) (path : string) :
  match Re.rmatch (pattern_of d labeled) path with
  | None => selected d labeled path = false
  | Some res =>
      selected d labeled path = true
      /\ (if labeled
          then option_map pyval_of_group
                 (Re.getitem (Re.groupdict (pattern_of d labeled) res)
                             "label")
          else Some (PyInt (-1)))
         = Some (expected_label d labeled path)
  end.
Proof.
  destruct labeled.
  - rewrite rmatch_labeled. unfold selected, expected_label, Re.groupdict.
    rewrite group_names_labeled, !lies_under_after.
    change ("neg" ++ "/") with "neg/". change ("pos" ++ "/") with "pos/".
    destruct (Str.after path (split_prefix d)) as [tail|]; [|reflexivity].
    destruct (Str.after tail "neg/") as [r|] eqn:Eneg.
    + split; reflexivity.
    + destruct (Str.after tail "pos/") as [r|] eqn:Epos.
      * split; reflexivity.
      * reflexivity.
  - rewrite rmatch_unlabeled. unfold selected, expected_label.
    rewrite lies_under_after, after_app.
    change ("unsup" ++ "/") with "unsup/".
    destruct (Str.after path (split_prefix d)) as [tail|]; [|reflexivity].
    destruct (Str.after tail "unsup/"); [split; reflexivity | reflexivity].
Qed.

Lemma run_loop_plain (d : string) (labeled : bool) (rest : list entry) :
  forall seen : list entry,
    run_loop (pattern_of d labeled) labeled seen rest =
    {| Gen.items := flat_map (emit d labeled) rest;
       Gen.finish := Gen.Exhausted;
       Gen.final := GEnd (seen ++ map (touch d labeled) rest) |}.
Proof.
  induction rest as [|[path imdb_f] rest IH]; intros seen.
  - cbn. now rewrite app_nil_r.
  - cbn [run_loop flat_map map].
    unfold emit at 1, touch at 1. cbn [fst snd].
    pose proof (match_decides d labeled path) as Hm.
    destruct (Re.rmatch (pattern_of d labeled) path) as [res|].
    + destruct Hm as [Hsel Hlab]. rewrite Hsel.
      unfold File.read at 1. cbn [snd]. rewrite Hlab, IH.
      unfold Gen.cons_item; cbn.
      now rewrite <- app_assoc.
    + rewrite Hm, IH. cbn. now rewrite <- app_assoc.
Qed.

(** The whole iteration of a split with a plain directory: no error,
    the selected entries in archive order, and the file objects of the
    selected entries read to their end. *)
Lemma examples_of_plain (archive : list entry) (d : string) (labeled : bool) :
  plain d = true ->
  examples_of (_generate_examples archive d labeled) =
  Some {| Gen.items := flat_map (emit d labeled) archive;
          Gen.finish := Gen.Exhausted;
          Gen.final := GEnd (map (touch d labeled) archive) |}.
Proof.
  intros Hd. rewrite examples_of_start, compile_reg_source by exact Hd.
  now rewrite run_loop_plain.
Qed.

End GeneratorFacts.

(** ** Facts shared by the properties below *)

Section SharedFacts.

Lemma in_emit (d : string) (labeled : bool) (archive : list entry)
      (key : string) (ex : Example) :
  In (key, ex) (flat_map (emit d labeled) archive) <->
  exists f, In (key, f) archive
            /\ selected d labeled key = true
            /\ ex = {| text := Bytes.strip (File.remaining f);
                       label := expected_label d labeled key |}.
Proof.
  rewrite in_flat_map. split.
  - intros ([path f] & Hin & Hex). unfold emit in Hex. cbn [fst snd] in Hex.
    destruct (selected d labeled path) eqn:Hsel; [|contradiction].
    destruct Hex as [[= <- <-]|[]]. exists f. auto.
  - intros (f & Hin & Hsel & ->). exists (key, f). split; [exact Hin|].
    unfold emit. cbn [fst snd]. rewrite Hsel. now left.
Qed.

Lemma neg_not_pos (d path : string) :
  lies_under d "neg" path = true -> lies_under d "pos" path = false.
Proof.
  rewrite !lies_under_after.
  destruct (Str.after path (split_prefix d)) as [tail|]; [|discriminate].
  change ("neg" ++ "/") with "neg/". change ("pos" ++ "/") with "pos/".
  destruct (Str.after tail "neg/") as [r|] eqn:E; [|discriminate].
  now rewrite (neg_excludes_pos _ _ E).
Qed.

Lemma unsup_not_labeled (d path : string) :
  lies_under d "unsup" path = true -> selected d true path = false.
Proof.
  unfold selected. rewrite !lies_under_after.
  destruct (Str.after path (split_prefix d)) as [tail|]; [|discriminate].
  change ("unsup" ++ "/") with "unsup/".
  destruct (Str.after tail "unsup/") as [r|] eqn:E; [|discriminate].
  apply after_sound in E. subst tail. reflexivity.
Qed.

Lemma map_fst_emit (d : string) (labeled : bool) (archive : list entry) :
  map fst (flat_map (emit d labeled) archive) =
  filter (selected d labeled) (map fst archive).
Proof.
  induction archive as [|[path f] archive IH]; [reflexivity|].
  cbn [flat_map map filter fst]. rewrite map_app, IH.
  unfold emit. cbn [fst snd].
  destruct (selected d labeled path); reflexivity.
Qed.

Lemma lstrip_spaces (l : list Byte.byte) :
  forallb Bytes.is_space l = true -> Bytes.lstrip l = [].
Proof.
  induction l as [|b l IH]; [reflexivity|].
  cbn [forallb Bytes.lstrip]. intros H.
  apply andb_prop in H as [Hb Hl]. rewrite Hb. now apply IH.
Qed.

Lemma strip_spaces (l : list Byte.byte) :
  forallb Bytes.is_space l = true -> Bytes.strip l = [].
Proof.
  intros H. unfold Bytes.strip, Bytes.rstrip.
  now rewrite (lstrip_spaces l H).
Qed.

Lemma lstrip_spec (l : list Byte.byte) :
  exists pre,
    l = (pre ++ Bytes.lstrip l)%list
    /\ forallb Bytes.is_space pre = true
    /\ forall b, hd_error (Bytes.lstrip l) = Some b ->
                 Bytes.is_space b = false.
Proof.
  induction l as [|a l (pre & Hl & Hpre & Hhd)].
  - exists []. repeat split. discriminate.
  - cbn [Bytes.lstrip]. destruct (Bytes.is_space a) eqn:Ha.
    + exists (a :: pre). cbn [app forallb]. rewrite Ha, Hpre.
      repeat split; [now f_equal | exact Hhd].
    + exists []. repeat split. now intros b [= <-].
Qed.

Lemma forallb_rev (A : Type) (p : A -> bool) (l : list A) :
  forallb p (rev l) = forallb p l.
Proof.
  induction l as [|a l IH]; [reflexivity|].
  cbn [rev forallb]. rewrite forallb_app, IH. cbn [forallb].
  rewrite andb_true_r. apply andb_comm.
Qed.

(** [bytes.strip()] takes whitespace, and all of it, off both ends. *)
Lemma strip_spec (l : list Byte.byte) : stripped_of l (Bytes.strip l).
Proof.
  destruct (lstrip_spec l) as (pre & Hl & Hpre & Hhd).
  destruct (lstrip_spec (rev (Bytes.lstrip l))) as (erp & Hr & Herp & Hlast).
  assert (Hmid : Bytes.lstrip l = (Bytes.strip l ++ rev erp)%list).
  { unfold Bytes.strip, Bytes.rstrip.
    rewrite <- rev_app_distr, <- Hr. symmetry. apply rev_involutive. }
  exists pre, (rev erp). repeat split.
  - now rewrite <- Hmid.
  - exact Hpre.
  - now rewrite forallb_rev.
  - intros b Hb. apply Hhd. rewrite Hmid.
    destruct (Bytes.strip l); [discriminate | exact Hb].
  - intros b Hb. apply Hlast.
    unfold Bytes.strip, Bytes.rstrip in Hb.
    now rewrite rev_involutive in Hb.
Qed.

Lemma nth_error_touch (d : string) (labeled : bool) (archive : list entry)
      (i : nat) (path : string) (f : File.file) :
  nth_error archive i = Some (path, f) ->
  nth_error (map (touch d labeled) archive) i =
  Some (path, if selected d labeled path then snd (File.read f) else f).
Proof.
  intros H. rewrite nth_error_map, H. cbn [option_map].
  unfold touch. cbn [fst snd].
  destruct (selected d labeled path); reflexivity.
Qed.

(** The loop looks at an entry only through its path and the bytes its
    file object still holds. *)
Lemma run_loop_views (reg : Re.regex) (labeled : bool)
      (rest1 : list entry) :
  forall (rest2 seen1 seen2 : list entry),
    map view rest1 = map view rest2 ->
    Gen.items (run_loop reg labeled seen1 rest1)
    = Gen.items (run_loop reg labeled seen2 rest2)
    /\ Gen.finish (run_loop reg labeled seen1 rest1)
       = Gen.finish (run_loop reg labeled seen2 rest2).
Proof.
  induction rest1 as [|[p1 f1] rest1 IH];
    intros [|[p2 f2] rest2] seen1 seen2 Hv; try discriminate.
  - split; reflexivity.
  - cbn [map view fst snd] in Hv. injection Hv as -> Hrem Hv.
    cbn [run_loop]. destruct (Re.rmatch reg p2) as [res|].
    + unfold File.read. rewrite Hrem.
      destruct (if labeled
                then option_map pyval_of_group
                       (Re.getitem (Re.groupdict reg res) "label")
                else Some (PyInt (-1))) as [lab|].
      * cbn [Gen.cons_item Gen.items Gen.finish].
        destruct (IH rest2 (seen1 ++ [(p2, snd (File.read f1))])%list
                     (seen2 ++ [(p2, snd (File.read f2))])%list Hv)
          as [Hi Hf].
        unfold File.read in Hi, Hf. cbn [snd] in Hi, Hf.
        now rewrite Hi, Hf.
      * split; reflexivity.
    + now apply IH.
Qed.

(** [_vocab_text_gen] advances in lock step with the generator it wraps. *)
Lemma collect_vocab (fuel : nat) :
  forall inner : gen_state,
    Gen.collect vocab_text_gen_next fuel (VGen inner) =
    option_map
      (fun out =>
         {| Gen.items := map (fun kv => text (snd kv)) (Gen.items out);
            Gen.finish := Gen.finish out;
            Gen.final := VGen (Gen.final out) |})
      (Gen.collect generate_examples_next fuel inner).
Proof.
  induction fuel as [|fuel IH]; intros inner; [reflexivity|].
  cbn [Gen.collect vocab_text_gen_next].
  destruct (generate_examples_next inner) as [[key ex] inner'|inner'|e inner'];
    try reflexivity.
  rewrite IH.
  destruct (Gen.collect generate_examples_next fuel inner'); reflexivity.
Qed.

End SharedFacts.

(** ** Properties of the adapter *)

(** C1: in a labeled split, every archive entry whose path lies under the
    split's directory followed by [neg] is emitted with label ["neg"], and
    every emitted pair whose key lies there carries ["neg"]; likewise for
    [pos]. *)
Theorem labeled_entries_carry_their_directory_label
        (archive : list entry) (d : string) :
  plain d = true ->
  exists out,
    examples_of (_generate_examples archive d true) = Some out
    /\ Gen.finish out = Gen.Exhausted
    /\ (forall seg, seg = "neg" \/ seg = "pos" ->
          (forall path f,
              In (path, f) archive -> lies_under d seg path = true ->
              In (path, {| text := Bytes.strip (File.remaining f);
                           label := PyStr seg |}) (Gen.items out))
          /\ (forall key ex,
                In (key, ex) (Gen.items out) -> lies_under d seg key = true ->
                label ex = PyStr seg)).
Proof.
  intros Hd. eexists. split; [apply examples_of_plain; exact Hd|].
  cbn [Gen.finish Gen.items]. split; [reflexivity|].
  assert (Hlab : forall seg path,
             seg = "neg" \/ seg = "pos" -> lies_under d seg path = true ->
             selected d true path = true
             /\ expected_label d true path = PyStr seg).
  { intros seg path [-> | ->] Hu; unfold selected, expected_label.
    - now rewrite Hu.
    - rewrite Hu, orb_true_r.
      destruct (lies_under d "neg" path) eqn:Hn; [|split; reflexivity].
      apply neg_not_pos in Hn. congruence. }
  intros seg Hseg. split.
  - intros path f Hin Hu. destruct (Hlab seg path Hseg Hu) as [Hsel Hex].
    apply in_emit. exists f. rewrite Hex. auto.
  - intros key ex Hin Hu. apply in_emit in Hin as (f & _ & _ & ->).
    cbn [label]. now apply Hlab.
Qed.

Lemma labeled_entries_carry_their_directory_label_witness :
  plain "aclImdb/train" = true
  /\ exists out,
      examples_of (_generate_examples sample_archive "aclImdb/train" true)
      = Some out
      /\ Gen.finish out = Gen.Exhausted
      /\ (forall seg, seg = "neg" \/ seg = "pos" ->
            (forall path f,
                In (path, f) sample_archive ->
                lies_under "aclImdb/train" seg path = true ->
                In (path, {| text := Bytes.strip (File.remaining f);
                             label := PyStr seg |}) (Gen.items out))
            /\ (forall key ex,
                  In (key, ex) (Gen.items out) ->
                  lies_under "aclImdb/train" seg key = true ->
                  label ex = PyStr seg)).
Proof.
  split; [reflexivity|].
  apply (labeled_entries_carry_their_directory_label
           sample_archive "aclImdb/train").
  reflexivity.
Defined.

(** C2: a split yields a record for an archive entry exactly when the
    entry's path starts with the split's directory prefix, then [neg] or
    [pos] when labeled ([unsup] when not), then a path separator.  The other
    entries are passed over without an error, and an entry under [unsup]
    never appears in a labeled split. *)
Theorem yields_exactly_the_matching_paths
        (archive : list entry) (d : string) (labeled : bool) :
  plain d = true ->
  exists out,
    examples_of (_generate_examples archive d labeled) = Some out
    /\ Gen.finish out = Gen.Exhausted
    /\ map fst (Gen.items out) = filter (selected d labeled) (map fst archive)
    /\ (forall path,
          In path (map fst (Gen.items out)) <->
          In path (map fst archive) /\ selected d labeled path = true)
    /\ (labeled = true ->
        forall path, lies_under d "unsup" path = true ->
                     ~ In path (map fst (Gen.items out))).
Proof.
  intros Hd. eexists. split; [apply examples_of_plain; exact Hd|].
  cbn [Gen.finish Gen.items]. rewrite map_fst_emit.
  split; [reflexivity|]. split; [reflexivity|]. split.
  - intros path. apply filter_In.
  - intros -> path Hu Hin. apply filter_In in Hin as [_ Hsel].
    rewrite (unsup_not_labeled _ _ Hu) in Hsel. discriminate.
Qed.

Lemma yields_exactly_the_matching_paths_witness :
  plain "aclImdb/train" = true
  /\ exists out,
      examples_of (_generate_examples sample_archive "aclImdb/train" true)
      = Some out
      /\ Gen.finish out = Gen.Exhausted
      /\ map fst (Gen.items out)
         = filter (selected "aclImdb/train" true) (map fst sample_archive)
      /\ (forall path,
            In path (map fst (Gen.items out)) <->
            In path (map fst sample_archive)
            /\ selected "aclImdb/train" true path = true)
      /\ (true = true ->
          forall path, lies_under "aclImdb/train" "unsup" path = true ->
                       ~ In path (map fst (Gen.items out))).
Proof.
  split; [reflexivity|].
  apply (yields_exactly_the_matching_paths sample_archive "aclImdb/train" true).
  reflexivity.
Defined.

(** C3: the label of every emitted example agrees with the directory
    segment of its key: under [neg] the label is the class [neg], of code 0;
    under [pos] the class [pos], of code 1; in the unsupervised split the
    key lies under [unsup] and the label is -1. *)
Theorem emitted_labels_agree_with_segment
        (archive : list entry) (d : string) (labeled : bool) :
  plain d = true ->
  exists out,
    examples_of (_generate_examples archive d labeled) = Some out
    /\ forall key ex,
        In (key, ex) (Gen.items out) ->
        if labeled
        then (lies_under d "neg" key = true /\ label ex = PyStr "neg"
              /\ label_code (label ex) = Some 0%Z)
             \/ (lies_under d "pos" key = true /\ label ex = PyStr "pos"
                 /\ label_code (label ex) = Some 1%Z)
        else lies_under d "unsup" key = true /\ label ex = PyInt (-1)
             /\ label_code (label ex) = Some (-1)%Z.
Proof.
  intros Hd. eexists. split; [apply examples_of_plain; exact Hd|].
  cbn [Gen.items]. intros key ex Hin.
  apply in_emit in Hin as (f & _ & Hsel & ->). cbn [label].
  unfold selected, expected_label in *. destruct labeled.
  - destruct (lies_under d "neg" key) eqn:Hn.
    + left. repeat split.
    + right. cbn [orb] in Hsel. repeat split. exact Hsel.
  - repeat split. exact Hsel.
Qed.

Lemma emitted_labels_agree_with_segment_witness :
  plain "aclImdb/train" = true
  /\ exists out,
      examples_of (_generate_examples sample_archive "aclImdb/train" false)
      = Some out
      /\ forall key ex,
          In (key, ex) (Gen.items out) ->
          lies_under "aclImdb/train" "unsup" key = true
          /\ label ex = PyInt (-1)
          /\ label_code (label ex) = Some (-1)%Z.
Proof.
  split; [reflexivity|].
  apply (emitted_labels_agree_with_segment
           sample_archive "aclImdb/train" false).
  reflexivity.
Defined.

(** C4: over an archive of unread file objects, each matched entry yields
    one pair, in archive order: its key is the entry's path and its text the
    entry's whole content without its leading and trailing whitespace. *)
Theorem matched_entries_yield_path_and_stripped_content
        (archive : list entry) (d : string) (labeled : bool) :
  plain d = true ->
  all_fresh archive = true ->
  exists out,
    examples_of (_generate_examples archive d labeled) = Some out
    /\ Gen.finish out = Gen.Exhausted
    /\ Gen.items out =
       flat_map
         (fun e : entry =>
            if selected d labeled (fst e)
            then [(fst e,
                   {| text := Bytes.strip (File.content (snd e));
                      label := expected_label d labeled (fst e) |})]
            else [])
         archive
    /\ (forall key ex,
          In (key, ex) (Gen.items out) ->
          exists f, In (key, f) archive
                    /\ stripped_of (File.content f) (text ex)).
Proof.
  intros Hd Hfresh. eexists. split; [apply examples_of_plain; exact Hd|].
  cbn [Gen.finish Gen.items]. split; [reflexivity|].
  unfold all_fresh in Hfresh. rewrite forallb_forall in Hfresh.
  assert (Hrem : forall key f, In (key, f) archive ->
                               File.remaining f = File.content f).
  { intros key f Hin. specialize (Hfresh _ Hin). cbn [snd] in Hfresh.
    apply Nat.eqb_eq in Hfresh. unfold File.remaining. now rewrite Hfresh. }
  split.
  - rewrite !flat_map_concat_map. f_equal.
    apply map_ext_in. intros [path f] Hin.
    unfold emit. cbn [fst snd]. now rewrite (Hrem _ _ Hin).
  - intros key ex Hin. apply in_emit in Hin as (f & Hin & _ & ->).
    exists f. split; [exact Hin|]. cbn [text].
    rewrite (Hrem _ _ Hin). apply strip_spec.
Qed.

Lemma matched_entries_yield_path_and_stripped_content_witness :
  plain "aclImdb/train" = true
  /\ all_fresh great_movie_archive = true
  /\ exists out,
      examples_of (_generate_examples great_movie_archive "aclImdb/train" true)
      = Some out
      /\ Gen.items out =
         [("aclImdb/train/pos/0_9.txt",
           {| text := Bytes.lit "Great movie!"; label := PyStr "pos" |})].
Proof.
  split; [reflexivity|]. split; [reflexivity|].
  destruct (matched_entries_yield_path_and_stripped_content
              great_movie_archive "aclImdb/train" true
              eq_refl eq_refl) as (out & Hout & _ & Hitems & _).
  exists out. split; [exact Hout|]. rewrite Hitems. reflexivity.
Defined.

(** C5: two runs with the same directory and flag, over archives that
    present the same paths and contents in the same order, both end, in the
    same way, having yielded the same pairs in the same order. *)
Theorem generation_is_deterministic
        (archive1 archive2 : list entry) (d : string) (labeled : bool) :
  map view archive1 = map view archive2 ->
  exists out1 out2,
    examples_of (_generate_examples archive1 d labeled) = Some out1
    /\ examples_of (_generate_examples archive2 d labeled) = Some out2
    /\ Gen.items out1 = Gen.items out2
    /\ Gen.finish out1 = Gen.finish out2.
Proof.
  intros Hv. do 2 eexists.
  split; [apply examples_of_start|]. split; [apply examples_of_start|].
  destruct (Re.compile (reg_source d labeled)) as [reg| |];
    try (split; reflexivity).
  now apply run_loop_views.
Qed.

Lemma generation_is_deterministic_witness :
  map view sample_archive = map view sample_archive_shifted
  /\ sample_archive <> sample_archive_shifted
  /\ exists out1 out2,
      examples_of (_generate_examples sample_archive "aclImdb/test" true)
      = Some out1
      /\ examples_of
           (_generate_examples sample_archive_shifted "aclImdb/test" true)
         = Some out2
      /\ Gen.items out1 = Gen.items out2
      /\ Gen.finish out1 = Gen.finish out2.
Proof.
  split; [reflexivity|]. split; [discriminate|].
  apply (generation_is_deterministic
           sample_archive sample_archive_shifted "aclImdb/test" true).
  reflexivity.
Defined.

(** C6: [_split_generators] declares three splits, whatever the download
    manager: [train] on [aclImdb/train] and [test] on [aclImdb/test], both
    labeled, and [unsupervised], not labeled, on [aclImdb/train] again, where
    its pattern selects the [unsup] segment.  Each split iterates the one
    downloaded archive. *)
Theorem split_plan_is_fixed (dl : dl_manager) :
  map (fun sg => (sg_name sg,
                  kw_directory (sg_gen_kwargs sg),
                  labeled_of (sg_gen_kwargs sg)))
      (splits (_split_generators dl))
  = [ ("train", "aclImdb/train", true);
      ("test", "aclImdb/test", true);
      ("unsupervised", "aclImdb/train", false) ]
  /\ Forall (fun sg =>
               kw_archive (sg_gen_kwargs sg)
               = iter_archive dl (download dl _DOWNLOAD_URL)
               /\ generate_split (sg_gen_kwargs sg)
                  = _generate_examples (kw_archive (sg_gen_kwargs sg))
                                       (kw_directory (sg_gen_kwargs sg))
                                       (labeled_of (sg_gen_kwargs sg)))
            (splits (_split_generators dl))
  /\ reg_source "aclImdb/train" false = "^aclImdb/train/unsup/".
Proof.
  split; [reflexivity|]. split; [|reflexivity].
  repeat constructor.
Qed.

(** C7: a matched entry whose content is empty or all whitespace is still
    yielded, with an empty text. *)
Theorem blank_entries_are_still_yielded
        (archive : list entry) (d : string) (labeled : bool)
        (path : string) (f : File.file) :
  plain d = true ->
  In (path, f) archive ->
  selected d labeled path = true ->
  forallb Bytes.is_space (File.remaining f) = true ->
  exists out,
    examples_of (_generate_examples archive d labeled) = Some out
    /\ In (path, {| text := []; label := expected_label d labeled path |})
          (Gen.items out)
    /\ length (Gen.items out)
       = length (filter (selected d labeled) (map fst archive)).
Proof.
  intros Hd Hin Hsel Hblank.
  eexists. split; [apply examples_of_plain; exact Hd|].
  cbn [Gen.items]. split.
  - apply in_emit. exists f. rewrite (strip_spaces _ Hblank). auto.
  - now rewrite <- map_fst_emit, length_map.
Qed.

Lemma blank_entries_are_still_yielded_witness :
  plain "aclImdb/train" = true
  /\ In ("aclImdb/train/neg/1_1.txt", File.fresh (Bytes.lit "   "))
        sample_archive
  /\ selected "aclImdb/train" true "aclImdb/train/neg/1_1.txt" = true
  /\ forallb Bytes.is_space
             (File.remaining (File.fresh (Bytes.lit "   "))) = true
  /\ exists out,
      examples_of (_generate_examples sample_archive "aclImdb/train" true)
      = Some out
      /\ In ("aclImdb/train/neg/1_1.txt",
             {| text := []; label := PyStr "neg" |}) (Gen.items out)
      /\ length (Gen.items out) = 2.
Proof.
  assert (Hin : In ("aclImdb/train/neg/1_1.txt", File.fresh (Bytes.lit "   "))
                   sample_archive)
    by (simpl; auto).
  split; [reflexivity|]. split; [exact Hin|].
  split; [reflexivity|]. split; [reflexivity|].
  apply (blank_entries_are_still_yielded
           sample_archive "aclImdb/train" true
           "aclImdb/train/neg/1_1.txt" (File.fresh (Bytes.lit "   "))
           eq_refl Hin eq_refl eq_refl).
Defined.

(** C8: [BUILDER_CONFIGS] lists four configurations, named [plain_text],
    [bytes], [subwords8k] and [subwords32k]; the two subword ones carry the
    vocabulary sizes 8192 and 32768, the other two none. *)
Theorem builder_configs_are_the_four_variants :
  map name BUILDER_CONFIGS
  = ["plain_text"; "bytes"; "subwords8k"; "subwords32k"]
  /\ map (fun c => vocab_size (text_encoder_config c)) BUILDER_CONFIGS
     = [None; None; Some 8192%Z; Some 32768%Z]
  /\ map (fun c => encoder_cls (text_encoder_config c)) BUILDER_CONFIGS
     = [None; None; Some SubwordTextEncoder; Some SubwordTextEncoder]
  /\ length BUILDER_CONFIGS = 4.
Proof.
  repeat split.
Qed.

(** C9: [_vocab_text_gen(archive)] yields the texts of the pairs that
    [_generate_examples(archive, "aclImdb/train")] yields with [labeled]
    left to its default, in the same order, and ends the same way. *)
Theorem vocab_texts_are_the_training_texts (archive : list entry) :
  exists out,
    examples_of (_generate_examples archive "aclImdb/train" true) = Some out
    /\ vocab_texts_of (_vocab_text_gen archive)
       = Some {| Gen.items := map (fun kv => text (snd kv)) (Gen.items out);
                 Gen.finish := Gen.finish out;
                 Gen.final := VGen (Gen.final out) |}.
Proof.
  destruct (examples_of (_generate_examples archive "aclImdb/train" true))
    as [out|] eqn:E.
  - exists out. split; [reflexivity|].
    unfold vocab_texts_of, _vocab_text_gen. cbn [vocab_fuel].
    rewrite collect_vocab.
    change (OsPath.join "aclImdb" ["train"]) with "aclImdb/train".
    unfold examples_of in E. now rewrite E.
  - rewrite examples_of_start in E. discriminate.
Qed.

(** C10: the generator reads the file objects of the matching entries
    only: when it ends, the file object of every entry it passed over is as
    it was, and that of every matching entry has been read to its end. *)
Theorem skipped_entries_are_left_unread
        (archive : list entry) (d : string) (labeled : bool) :
  plain d = true ->
  exists out seen,
    examples_of (_generate_examples archive d labeled) = Some out
    /\ Gen.final out = GEnd seen
    /\ length seen = length archive
    /\ forall i path f,
        nth_error archive i = Some (path, f) ->
        nth_error seen i
        = Some (path, if selected d labeled path
                      then snd (File.read f)
                      else f).
Proof.
  intros Hd. do 2 eexists. split; [apply examples_of_plain; exact Hd|].
  cbn [Gen.final]. split; [reflexivity|]. split; [apply length_map|].
  intros i path f. apply nth_error_touch.
Qed.

Lemma skipped_entries_are_left_unread_witness :
  plain "aclImdb/train" = true
  /\ exists out seen,
      examples_of (_generate_examples sample_archive "aclImdb/train" true)
      = Some out
      /\ Gen.final out = GEnd seen
      /\ length seen = length sample_archive
      /\ forall i path f,
          nth_error sample_archive i = Some (path, f) ->
          nth_error seen i
          = Some (path, if selected "aclImdb/train" true path
                        then snd (File.read f)
                        else f).
Proof.
  split; [reflexivity|].
  apply (skipped_entries_are_left_unread sample_archive "aclImdb/train" true).
  reflexivity.
Defined.

(** ** Remarks on the model *)

(** The directories of the split plan are plain. *)
Remark split_directories_are_plain (dl : dl_manager) :
  Forall (fun sg => plain (kw_directory (sg_gen_kwargs sg)) = true)
         (splits (_split_generators dl)).
Proof.
  repeat constructor.
Qed.

(** Every iteration ends, whatever the directory: with the end of the
    archive or with an exception. *)
Remark examples_of_total (archive : list entry) (d : string) (labeled : bool) :
  exists out, examples_of (_generate_examples archive d labeled) = Some out.
Proof.
  eexists. apply examples_of_start.
Qed.

(** The directory goes into the pattern as it is: a directory that is not
    plain is read as a pattern, here with [.] standing for any character. *)
Remark unescaped_directory_is_a_pattern :
  option_map (fun out => map fst (Gen.items out))
    (examples_of
       (_generate_examples
          [("aclImdb-train/neg/7_1.txt", File.fresh (Bytes.lit "Bad."))]
          "aclImdb.train" true))
  = Some ["aclImdb-train/neg/7_1.txt"].
Proof.
  reflexivity.
Qed.

(** The spec's second example scenario: the unsupervised split yields the
    entry under [unsup] with label -1, the labeled train split does not
    yield it. *)
Remark unsupervised_scenario :
  option_map (@Gen.items _ _)
    (examples_of (_generate_examples sample_archive "aclImdb/train" false))
  = Some [("aclImdb/train/unsup/5.txt",
           {| text := Bytes.lit "Meh."; label := PyInt (-1) |})]
  /\ option_map (fun out => map fst (Gen.items out))
       (examples_of (_generate_examples sample_archive "aclImdb/train" true))
     = Some ["aclImdb/train/pos/0_9.txt"; "aclImdb/train/neg/1_1.txt"].
Proof.
  split; reflexivity.
Qed.

(** A second pass over the file objects a first pass has read finds them
    at their end: every text is empty. *)
Remark second_pass_reads_nothing :
  exists out seen,
    examples_of (_generate_examples sample_archive "aclImdb/test" true)
    = Some out
    /\ Gen.final out = GEnd seen
    /\ option_map (fun out' => map (fun kv => text (snd kv)) (Gen.items out'))
         (examples_of (_generate_examples seen "aclImdb/test" true))
       = Some [[]].
Proof.
  do 2 eexists. split; [reflexivity|]. split; reflexivity.
Qed.

(** ** Further properties: paths, bytes and file objects *)

Lemma join_from_app (path : string) (ps qs : list string) :
  OsPath.join_from path (ps ++ qs)
  = OsPath.join_from (OsPath.join_from path ps) qs.
Proof.
  revert path; induction ps as [|b ps IH]; intros path; [reflexivity|].
  cbn [app OsPath.join_from]. apply IH.
Qed.

Lemma append_nonempty_l (a b : string) : a <> "" -> a ++ b <> "".
Proof.
  destruct a; [contradiction | discriminate].
Qed.

Lemma join_from_nonempty (ps : list string) :
  forall path, path <> "" -> OsPath.join_from path ps <> "".
Proof.
  induction ps as [|b ps IH]; intros path Hp; [exact Hp|].
  cbn [OsPath.join_from]. apply IH.
  destruct (Str.startswith b "/") eqn:Hb.
  - destruct b; [discriminate Hb | discriminate].
  - destruct ((path =? "") || Str.endswith_char path Str.sep);
      now apply append_nonempty_l.
Qed.

Lemma append_empty_r (a : string) : a ++ "" = a.
Proof.
  induction a as [|x a IH]; [reflexivity | cbn; now rewrite IH].
Qed.

(** X1: [os.path.join] whose last component is empty, as in
    [_generate_examples], gives a path that ends with the separator,
    whatever the components before, provided the first is not empty. *)
Theorem join_with_empty_last_ends_with_separator
        (a : string) (ps : list string) :
  a <> "" ->
  Str.endswith_char (OsPath.join a (ps ++ [""])) Str.sep = true.
Proof.
  intros Ha. unfold OsPath.join. rewrite join_from_app.
  pose proof (join_from_nonempty ps a Ha) as Hr.
  set (r := OsPath.join_from a ps) in *.
  cbn [OsPath.join_from Str.startswith].
  destruct (String.eqb_spec r "") as [E|_]; [contradiction|].
  cbn [orb]. destruct (Str.endswith_char r Str.sep) eqn:Hs.
  - now rewrite append_empty_r.
  - rewrite append_empty_r. now rewrite endswith_char_app by discriminate.
Qed.

Lemma join_with_empty_last_ends_with_separator_witness :
  "^aclImdb/train" <> ""
  /\ Str.endswith_char
       (OsPath.join "^aclImdb/train" (["(?P<label>neg|pos)"] ++ [""]))
       Str.sep = true.
Proof.
  split; [discriminate|].
  apply (join_with_empty_last_ends_with_separator
           "^aclImdb/train" ["(?P<label>neg|pos)"]).
  discriminate.
Defined.

Lemma lstrip_app_spaces (pre l : list Byte.byte) :
  forallb Bytes.is_space pre = true ->
  Bytes.lstrip (pre ++ l) = Bytes.lstrip l.
Proof.
  induction pre as [|b pre IH]; [reflexivity|].
  cbn [forallb app Bytes.lstrip]. intros H.
  apply andb_prop in H as [Hb Hpre]. rewrite Hb. now apply IH.
Qed.

Lemma lstrip_fixed (l : list Byte.byte) :
  (forall b, hd_error l = Some b -> Bytes.is_space b = false) ->
  Bytes.lstrip l = l.
Proof.
  destruct l as [|a l]; [reflexivity|]. intros H.
  cbn [Bytes.lstrip]. now rewrite (H a eq_refl).
Qed.

Lemma stripped_of_unique (l t : list Byte.byte) :
  stripped_of l t -> t = Bytes.strip l.
Proof.
  intros (pre & post & -> & Hpre & Hpost & Hhd & Hlast).
  unfold Bytes.strip, Bytes.rstrip. rewrite lstrip_app_spaces by exact Hpre.
  destruct t as [|a t].
  - cbn [app]. now rewrite (lstrip_spaces post Hpost).
  - rewrite (lstrip_fixed ((a :: t) ++ post)%list)
      by (intros b [= <-]; now apply Hhd).
    rewrite rev_app_distr, lstrip_app_spaces
      by (now rewrite forallb_rev).
    rewrite (lstrip_fixed (rev (a :: t))) by exact Hlast.
    now rewrite rev_involutive.
Qed.

(** X2: [bytes.strip()] gives the one list that is the argument without
    its leading and trailing whitespace: what is taken off either end is
    whitespace only, and the result neither starts nor ends with
    whitespace. *)
Theorem strip_is_the_stripped_form (l t : list Byte.byte) :
  stripped_of l t <-> t = Bytes.strip l.
Proof.
  split; [apply stripped_of_unique|]. intros ->. apply strip_spec.
Qed.

(** X3: stripping twice is stripping once. *)
Theorem strip_is_idempotent (l : list Byte.byte) :
  Bytes.strip (Bytes.strip l) = Bytes.strip l.
Proof.
  symmetry. apply stripped_of_unique.
  destruct (strip_spec l) as (pre & post & _ & _ & _ & Hhd & Hlast).
  exists [], []. rewrite app_nil_r. repeat split; assumption.
Qed.

(** X4: the text of an example is empty exactly when the bytes read from
    the entry are all whitespace (or none). *)
Theorem strip_is_empty_iff_blank (l : list Byte.byte) :
  Bytes.strip l = [] <-> forallb Bytes.is_space l = true.
Proof.
  split; [|apply strip_spaces].
  intros H. destruct (strip_spec l) as (pre & post & Hl & Hpre & Hpost & _).
  rewrite H in Hl. rewrite Hl, forallb_app, Hpre. exact Hpost.
Qed.

(** ** Further properties: the pattern of an arbitrary directory *)












(** ** Further properties: the generator on an arbitrary directory *)












Lemma loop_step (reg : Re.regex) (labeled : bool) (rest : list entry) :
  forall (seen : list entry) (key : string) (ex : Example) (g' : gen_state),
    generate_examples_loop reg labeled seen rest = Gen.Yield (key, ex) g' ->
    exists skipped f,
      rest = (skipped ++ (key, f) :: pending g')%list
      /\ drawn g' = (seen ++ skipped ++ [(key, snd (File.read f))])%list
      /\ Forall (fun e : entry => matches reg (fst e) = false) skipped
      /\ matches reg key = true
      /\ text ex = Bytes.strip (File.remaining f).
Proof.
  induction rest as [|[path imdb_f] rest IH]; intros seen key ex g';
    [discriminate|].
  cbn [generate_examples_loop].
  destruct (Re.rmatch reg path) as [res|] eqn:Em.
  - unfold File.read.
    destruct (if labeled
              then option_map pyval_of_group
                     (Re.getitem (Re.groupdict reg res) "label")
              else Some (PyInt (-1))) as [lab|]; [|discriminate].
    intros [= <- <- <-]. exists [], imdb_f.
    repeat split; [constructor | unfold matches; now rewrite Em].
  - intros H. destruct (IH _ _ _ _ H) as (skipped & f & -> & Hd & Hs & Hm & Ht).
    exists ((path, imdb_f) :: skipped), f.
    repeat split; try assumption.
    + rewrite Hd, <- !app_assoc. reflexivity.
    + constructor; [|exact Hs]. unfold matches. cbn [fst]. now rewrite Em.
Qed.

(** X9: the generator reads on demand.  A call of [next] that yields a
    pair passes over entries the pattern does not match, reads the file
    object of the one entry it yields, whose path is the key and whose
    stripped bytes are the text, and leaves the entries after it
    untouched. *)
Theorem next_reads_only_the_yielded_entry
        (g g' : gen_state) (key : string) (ex : Example) :
  generate_examples_next g = Gen.Yield (key, ex) g' ->
  exists skipped f,
    pending g = (skipped ++ (key, f) :: pending g')%list
    /\ drawn g' = (drawn g ++ skipped ++ [(key, snd (File.read f))])%list
    /\ text ex = Bytes.strip (File.remaining f)
    /\ ~ In key (map fst skipped).
Proof.
  assert (Hskip : forall reg skipped,
             Forall (fun e : entry => matches reg (fst e) = false) skipped ->
             matches reg key = true -> ~ In key (map fst skipped)).
  { intros reg skipped Hs Hm Hin. apply in_map_iff in Hin as (e & <- & Hin).
    rewrite Forall_forall in Hs. rewrite (Hs e Hin) in Hm. discriminate. }
  destruct g as [archive d labeled|reg labeled seen rest|seen];
    cbn [generate_examples_next pending drawn].
  - destruct (Re.compile (reg_source d labeled)) as [reg| |];
      [|discriminate|discriminate].
    intros H. apply loop_step in H as (skipped & f & Hp & Hd & Hs & Hm & Ht).
    exists skipped, f. eauto.
  - intros H. apply loop_step in H as (skipped & f & Hp & Hd & Hs & Hm & Ht).
    exists skipped, f. eauto.
  - discriminate.
Qed.

Lemma next_reads_only_the_yielded_entry_witness :
  exists g',
    generate_examples_next
      (_generate_examples sample_archive "aclImdb/train" true)
    = Gen.Yield ("aclImdb/train/pos/0_9.txt",
                 {| text := Bytes.lit "Great movie!"; label := PyStr "pos" |})
                g'
    /\ exists skipped f,
        pending (_generate_examples sample_archive "aclImdb/train" true)
        = (skipped ++ ("aclImdb/train/pos/0_9.txt", f) :: pending g')%list
        /\ drawn g'
           = (drawn (_generate_examples sample_archive "aclImdb/train" true)
              ++ skipped
              ++ [("aclImdb/train/pos/0_9.txt", snd (File.read f))])%list
        /\ text {| text := Bytes.lit "Great movie!"; label := PyStr "pos" |}
           = Bytes.strip (File.remaining f)
        /\ ~ In "aclImdb/train/pos/0_9.txt" (map fst skipped).
Proof.
  eexists. split; [reflexivity|].
  apply (next_reads_only_the_yielded_entry
           (_generate_examples sample_archive "aclImdb/train" true)).
  reflexivity.
Defined.

(** ** Further properties: splits with a plain directory *)

Lemma remaining_after_read (f : File.file) :
  File.remaining (snd (File.read f)) = [].
Proof.
  unfold File.read, File.remaining. cbn [snd File.offset File.content].
  apply skipn_all2. apply Nat.le_max_r.
Qed.

Lemma emit_after_touch (d : string) (labeled : bool) (archive : list entry) :
  flat_map (emit d labeled) (map (touch d labeled) archive)
  = map (fun kv : string * Example =>
           (fst kv, {| text := []; label := label (snd kv) |}))
        (flat_map (emit d labeled) archive).
Proof.
  induction archive as [|[path f] archive IH]; [reflexivity|].
  cbn [map flat_map]. rewrite map_app, IH. f_equal.
  unfold emit, touch. cbn [fst snd].
  destruct (selected d labeled path) eqn:Hsel; cbn [fst snd]; rewrite Hsel;
    [|reflexivity].
  now rewrite remaining_after_read.
Qed.

(** X10: the file objects a pass has read stay read.  A second pass over
    the archive a first pass leaves behind yields the same keys with the
    same labels, and every text empty. *)
Theorem second_pass_yields_empty_texts
        (archive : list entry) (d : string) (labeled : bool) :
  plain d = true ->
  exists out1 seen out2,
    examples_of (_generate_examples archive d labeled) = Some out1
    /\ Gen.final out1 = GEnd seen
    /\ examples_of (_generate_examples seen d labeled) = Some out2
    /\ Gen.items out2
       = map (fun kv : string * Example =>
                (fst kv, {| text := []; label := label (snd kv) |}))
             (Gen.items out1).
Proof.
  intros Hd. do 3 eexists.
  split; [apply examples_of_plain; exact Hd|].
  split; [reflexivity|].
  split; [apply examples_of_plain; exact Hd|].
  apply emit_after_touch.
Qed.

Lemma second_pass_yields_empty_texts_witness :
  plain "aclImdb/train" = true
  /\ exists out1 seen out2,
      examples_of (_generate_examples sample_archive "aclImdb/train" true)
      = Some out1
      /\ Gen.final out1 = GEnd seen
      /\ examples_of (_generate_examples seen "aclImdb/train" true)
         = Some out2
      /\ Gen.items out2
         = map (fun kv : string * Example =>
                  (fst kv, {| text := []; label := label (snd kv) |}))
               (Gen.items out1).
Proof.
  split; [reflexivity|].
  apply (second_pass_yields_empty_texts sample_archive "aclImdb/train" true).
  reflexivity.
Defined.

Lemma split_prefix_trailing_sep (d : string) :
  Str.endswith_char d Str.sep = false ->
  split_prefix (d ++ "/") = split_prefix d.
Proof.
  intros H. unfold split_prefix.
  rewrite endswith_char_app by discriminate. cbn. now rewrite H.
Qed.

(** X11: a separator at the end of the directory makes no difference: the
    split of [d/] is the split of [d]. *)
Theorem trailing_separator_is_immaterial
        (archive : list entry) (d : string) (labeled : bool) :
  plain d = true ->
  Str.endswith_char d Str.sep = false ->
  examples_of (_generate_examples archive (d ++ "/") labeled)
  = examples_of (_generate_examples archive d labeled).
Proof.
  intros Hd Hs.
  assert (Hd' : plain (d ++ "/") = true) by now rewrite plain_app, Hd.
  rewrite !examples_of_plain by assumption.
  pose proof (split_prefix_trailing_sep d Hs) as Hp.
  assert (Hsel : forall path,
             selected (d ++ "/") labeled path = selected d labeled path)
    by (intros path; unfold selected, lies_under; now rewrite Hp).
  assert (Hlab : forall path,
             expected_label (d ++ "/") labeled path
             = expected_label d labeled path)
    by (intros path; unfold expected_label, lies_under; now rewrite Hp).
  do 2 f_equal.
  - rewrite !flat_map_concat_map. f_equal. apply map_ext.
    intros e. unfold emit. now rewrite Hsel, Hlab.
  - f_equal. apply map_ext. intros e. unfold touch. now rewrite Hsel.
Qed.

Lemma trailing_separator_is_immaterial_witness :
  plain "aclImdb/train" = true
  /\ Str.endswith_char "aclImdb/train" Str.sep = false
  /\ examples_of
       (_generate_examples sample_archive ("aclImdb/train" ++ "/") true)
     = examples_of (_generate_examples sample_archive "aclImdb/train" true).
Proof.
  split; [reflexivity|]. split; [reflexivity|].
  apply (trailing_separator_is_immaterial
           sample_archive "aclImdb/train" true); reflexivity.
Defined.

(** X12: keys identify examples: over an archive whose paths are pairwise
    distinct, the keys a split yields are pairwise distinct. *)
Theorem distinct_paths_give_distinct_keys
        (archive : list entry) (d : string) (labeled : bool) :
  plain d = true ->
  NoDup (map fst archive) ->
  exists out,
    examples_of (_generate_examples archive d labeled) = Some out
    /\ NoDup (map fst (Gen.items out)).
Proof.
  intros Hd Hnd. eexists. split; [apply examples_of_plain; exact Hd|].
  cbn [Gen.items]. rewrite map_fst_emit. now apply NoDup_filter.
Qed.

Lemma distinct_paths_give_distinct_keys_witness :
  plain "aclImdb/train" = true
  /\ NoDup (map fst sample_archive)
  /\ exists out,
      examples_of (_generate_examples sample_archive "aclImdb/train" true)
      = Some out
      /\ NoDup (map fst (Gen.items out)).
Proof.
  assert (Hnd : NoDup (map fst sample_archive)).
  { repeat constructor; cbn; intuition discriminate. }
  split; [reflexivity|]. split; [exact Hnd|].
  apply (distinct_paths_give_distinct_keys
           sample_archive "aclImdb/train" true eq_refl Hnd).
Defined.




(** ** Further properties: the split plan *)

Lemma selected_shape (d : string) (labeled : bool) (key : string) :
  selected d labeled key = true ->
  exists seg r,
    key = split_prefix d ++ seg ++ "/" ++ r
    /\ (if labeled then seg = "neg" \/ seg = "pos" else seg = "unsup").
Proof.
  assert (H : forall seg, lies_under d seg key = true ->
                          exists r, key = split_prefix d ++ seg ++ "/" ++ r).
  { intros seg Hu. unfold lies_under in Hu. rewrite startswith_after in Hu.
    destruct (Str.after key (split_prefix d ++ seg ++ "/")) as [r|] eqn:E;
      [|discriminate].
    exists r. apply after_sound in E. now rewrite E, !append_assoc. }
  unfold selected. destruct labeled.
  - intros Hs. apply orb_true_iff in Hs as [Hs|Hs];
      destruct (H _ Hs) as (r & ->); eauto.
  - intros Hs. destruct (H _ Hs) as (r & ->). eauto.
Qed.

Lemma train_test_unsup_disjoint (key : string) :
  (selected "aclImdb/train" true key = true ->
   selected "aclImdb/test" true key = false
   /\ selected "aclImdb/train" false key = false)
  /\ (selected "aclImdb/test" true key = true ->
      selected "aclImdb/train" true key = false
      /\ selected "aclImdb/train" false key = false)
  /\ (selected "aclImdb/train" false key = true ->
      selected "aclImdb/train" true key = false
      /\ selected "aclImdb/test" true key = false).
Proof.
  split; [|split]; intros Hs;
    apply selected_shape in Hs as (seg & r & -> & Hseg);
    cbv beta iota in Hseg;
    first [ destruct Hseg as [-> | ->] | subst seg ];
    split; reflexivity.
Qed.

(** X14: the three splits of the plan, run over the downloaded archive,
    all end without an exception, and no key is yielded by two of them:
    train, test and unsupervised never share an entry. *)
Theorem splits_share_no_key
        (dl : dl_manager) (i j : nat) (s1 s2 : SplitGenerator) :
  i <> j ->
  nth_error (splits (_split_generators dl)) i = Some s1 ->
  nth_error (splits (_split_generators dl)) j = Some s2 ->
  exists o1 o2,
    examples_of (generate_split (sg_gen_kwargs s1)) = Some o1
    /\ examples_of (generate_split (sg_gen_kwargs s2)) = Some o2
    /\ Gen.finish o1 = Gen.Exhausted
    /\ Gen.finish o2 = Gen.Exhausted
    /\ forall key, In key (map fst (Gen.items o1)) ->
                   ~ In key (map fst (Gen.items o2)).
Proof.
  intros Hij H1 H2.
  destruct i as [|[|[|i]]]; destruct j as [|[|[|j]]];
    cbn [nth_error splits _split_generators] in H1, H2;
    try (destruct i; discriminate H1); try (destruct j; discriminate H2);
    try (now destruct Hij);
    injection H1 as <-; injection H2 as <-;
    (do 2 eexists;
     split; [apply examples_of_plain; reflexivity|];
     split; [apply examples_of_plain; reflexivity|];
     split; [reflexivity|]; split; [reflexivity|];
     intros key K1 K2; cbn [Gen.items] in K1, K2;
     rewrite map_fst_emit in K1, K2;
     apply filter_In in K1 as [_ K1]; apply filter_In in K2 as [_ K2];
     destruct (train_test_unsup_disjoint key) as (T1 & T2 & T3);
     first [ destruct (T1 K1) as [E1 E2] | destruct (T2 K1) as [E1 E2]
           | destruct (T3 K1) as [E1 E2] ];
     first [ discriminate (eq_trans (eq_sym K2) E1)
           | discriminate (eq_trans (eq_sym K2) E2) ]).
Qed.

Lemma splits_share_no_key_witness :
  0 <> 1
  /\ exists s1 s2,
      nth_error (splits (_split_generators sample_dl)) 0 = Some s1
      /\ nth_error (splits (_split_generators sample_dl)) 1 = Some s2
      /\ exists o1 o2,
          examples_of (generate_split (sg_gen_kwargs s1)) = Some o1
          /\ examples_of (generate_split (sg_gen_kwargs s2)) = Some o2
          /\ Gen.finish o1 = Gen.Exhausted
          /\ Gen.finish o2 = Gen.Exhausted
          /\ forall key, In key (map fst (Gen.items o1)) ->
                         ~ In key (map fst (Gen.items o2)).
Proof.
  split; [discriminate|].
  do 2 eexists. split; [reflexivity|]. split; [reflexivity|].
  apply (splits_share_no_key sample_dl 0 1); [discriminate | | ];
    reflexivity.
Defined.

Lemma texts_of_emit (d : string) (labeled : bool) (archive : list entry) :
  map (fun kv : string * Example => text (snd kv))
      (flat_map (emit d labeled) archive)
  = map (fun e : entry => Bytes.strip (File.remaining (snd e)))
        (filter (fun e : entry => selected d labeled (fst e)) archive).
Proof.
  induction archive as [|[path f] archive IH]; [reflexivity|].
  cbn [flat_map filter fst]. rewrite map_app, IH.
  unfold emit. cbn [fst snd].
  destruct (selected d labeled path); reflexivity.
Qed.

(** X15: the corpus [_split_generators] hands to the vocabulary builder
    is drawn from the training entries only: it is, in archive order, the
    stripped bytes of the entries under [aclImdb/train/neg] and
    [aclImdb/train/pos] of the downloaded archive, which are the texts of
    the train split; nothing of the test or unsupervised entries goes into
    it. *)
Theorem vocabulary_corpus_is_the_train_split (dl : dl_manager) :
  exists out train train_out,
    vocab_texts_of (corpus (_split_generators dl)) = Some out
    /\ Gen.finish out = Gen.Exhausted
    /\ Gen.items out
       = map (fun e : entry => Bytes.strip (File.remaining (snd e)))
             (filter (fun e : entry =>
                        Str.startswith (fst e) "aclImdb/train/neg/"
                        || Str.startswith (fst e) "aclImdb/train/pos/")
                     (iter_archive dl (download dl _DOWNLOAD_URL)))
    /\ nth_error (splits (_split_generators dl)) 0 = Some train
    /\ sg_name train = "train"
    /\ examples_of (generate_split (sg_gen_kwargs train)) = Some train_out
    /\ Gen.items out
       = map (fun kv : string * Example => text (snd kv))
             (Gen.items train_out).
Proof.
  do 3 eexists.
  split.
  { change (corpus (_split_generators dl))
      with (_vocab_text_gen (iter_archive dl (download dl _DOWNLOAD_URL))).
    unfold vocab_texts_of, _vocab_text_gen. cbn [vocab_fuel].
    rewrite collect_vocab.
    change (OsPath.join "aclImdb" ["train"]) with "aclImdb/train".
    pose proof (examples_of_plain
                  (iter_archive dl (download dl _DOWNLOAD_URL))
                  "aclImdb/train" true eq_refl) as E.
    unfold examples_of in E. rewrite E. reflexivity. }
  cbn [Gen.finish Gen.items]. split; [reflexivity|].
  split; [apply (texts_of_emit "aclImdb/train" true)|].
  split; [reflexivity|]. split; [reflexivity|].
  split; [apply examples_of_plain; reflexivity|]. reflexivity.
Qed.

(** X16: an archive entry ends up in the dataset exactly when its path
    lies under one of [aclImdb/train/neg], [aclImdb/train/pos],
    [aclImdb/test/neg], [aclImdb/test/pos] and [aclImdb/train/unsup]: those
    are the paths some split of the plan yields.  Every other entry, such as
    one under [aclImdb/test/unsup], is yielded by no split. *)
Theorem dataset_is_the_five_directories (dl : dl_manager) (key : string) :
  (exists sg out,
      In sg (splits (_split_generators dl))
      /\ examples_of (generate_split (sg_gen_kwargs sg)) = Some out
      /\ In key (map fst (Gen.items out)))
  <-> In key (map fst (iter_archive dl (download dl _DOWNLOAD_URL)))
      /\ in_dataset key = true.
Proof.
  set (archive := iter_archive dl (download dl _DOWNLOAD_URL)).
  assert (Hkeys : forall d labeled out,
             plain d = true ->
             examples_of (_generate_examples archive d labeled) = Some out ->
             (In key (map fst (Gen.items out)) <->
              In key (map fst archive) /\ selected d labeled key = true)).
  { intros d labeled out Hd Hout.
    rewrite (examples_of_plain archive d labeled Hd) in Hout.
    injection Hout as <-. cbn [Gen.items]. rewrite map_fst_emit.
    apply filter_In. }
  assert (Hin : in_dataset key
                = (selected "aclImdb/train" true key
                   || selected "aclImdb/test" true key
                   || selected "aclImdb/train" false key)).
  { unfold in_dataset, selected, lies_under.
    change (split_prefix "aclImdb/train" ++ "neg" ++ "/")
      with "aclImdb/train/neg/".
    change (split_prefix "aclImdb/train" ++ "pos" ++ "/")
      with "aclImdb/train/pos/".
    change (split_prefix "aclImdb/test" ++ "neg" ++ "/")
      with "aclImdb/test/neg/".
    change (split_prefix "aclImdb/test" ++ "pos" ++ "/")
      with "aclImdb/test/pos/".
    change (split_prefix "aclImdb/train" ++ "unsup" ++ "/")
      with "aclImdb/train/unsup/".
    now rewrite !orb_assoc. }
  rewrite Hin. split.
  - intros (sg & out & Hsg & Hout & Hk).
    destruct Hsg as [<-|[<-|[<-|[]]]].
    + apply (Hkeys "aclImdb/train" true out eq_refl Hout) in Hk as [Hp Hs].
      split; [exact Hp|]. now rewrite Hs.
    + apply (Hkeys "aclImdb/test" true out eq_refl Hout) in Hk as [Hp Hs].
      split; [exact Hp|]. now rewrite Hs, orb_true_r.
    + apply (Hkeys "aclImdb/train" false out eq_refl Hout) in Hk as [Hp Hs].
      split; [exact Hp|]. now rewrite Hs, orb_true_r.
  - intros [Hp Hs].
    apply orb_true_iff in Hs as [Hs|Hs];
      [apply orb_true_iff in Hs as [Hs|Hs]|].
    + eexists _, _. split; [left; reflexivity|].
      split; [apply examples_of_plain; reflexivity|].
      cbn [Gen.items]. rewrite map_fst_emit. apply filter_In. now split.
    + eexists _, _. split; [right; left; reflexivity|].
      split; [apply examples_of_plain; reflexivity|].
      cbn [Gen.items]. rewrite map_fst_emit. apply filter_In. now split.
    + eexists _, _. split; [right; right; left; reflexivity|].
      split; [apply examples_of_plain; reflexivity|].
      cbn [Gen.items]. rewrite map_fst_emit. apply filter_In. now split.
Qed.

(** X17: the labels a labeled split emits are class names the [label]
    feature of [_info] declares, whatever the builder configuration, and the
    supervised keys name the two declared features, the text one carrying
    the configuration's encoder settings. *)
Theorem emitted_labels_are_declared_classes
        (builder_config : IMDBReviewsConfig) (archive : list entry)
        (d : string) :
  plain d = true ->
  exists out names,
    examples_of (_generate_examples archive d true) = Some out
    /\ feature_of (info_features (_info builder_config))
                  (snd (supervised_keys (_info builder_config)))
       = Some (ClassLabel names)
    /\ feature_of (info_features (_info builder_config))
                  (fst (supervised_keys (_info builder_config)))
       = Some (Text (text_encoder_config builder_config))
    /\ forall key ex,
        In (key, ex) (Gen.items out) ->
        exists s, label ex = PyStr s /\ In s names.
Proof.
  intros Hd. do 2 eexists. split; [apply examples_of_plain; exact Hd|].
  split; [reflexivity|]. split; [reflexivity|].
  cbn [Gen.items]. intros key ex Hin.
  apply in_emit in Hin as (f & _ & _ & ->). cbn [label].
  unfold expected_label.
  destruct (lies_under d "neg" key); eexists; (split; [reflexivity|]);
    cbn; auto.
Qed.

Lemma emitted_labels_are_declared_classes_witness :
  plain "aclImdb/test" = true
  /\ exists out names,
      examples_of (_generate_examples sample_archive "aclImdb/test" true)
      = Some out
      /\ feature_of
           (info_features (_info (IMDBReviewsConfig_init None "plain_text"
                                                         "Plain text")))
           (snd (supervised_keys
                   (_info (IMDBReviewsConfig_init None "plain_text"
                                                  "Plain text"))))
         = Some (ClassLabel names)
      /\ feature_of
           (info_features (_info (IMDBReviewsConfig_init None "plain_text"
                                                         "Plain text")))
           (fst (supervised_keys
                   (_info (IMDBReviewsConfig_init None "plain_text"
                                                  "Plain text"))))
         = Some (Text (text_encoder_config
                         (IMDBReviewsConfig_init None "plain_text"
                                                 "Plain text")))
      /\ forall key ex,
          In (key, ex) (Gen.items out) ->
          exists s, label ex = PyStr s /\ In s names.
Proof.
  split; [reflexivity|].
  apply (emitted_labels_are_declared_classes
           (IMDBReviewsConfig_init None "plain_text" "Plain text")
           sample_archive "aclImdb/test").
  reflexivity.
Defined.
